(** * Verification of [scripts/download_mediapipe_lite.py]

    A shallow embedding of the MediaPipe Pose Lite model fetcher and the
    proofs of the properties its specification states.

    The script talks to a filesystem, to a network and to standard output.
    The embedding threads an explicit process state (working directory,
    filesystem, lines printed so far) through a small state-and-exception
    monad; everything the operating system or the server decides (the
    response to the GET request, which directories are write protected,
    which write hits a full disk, whether [stat] faults) is read from an
    environment record, so that every function below is executable.

    Python numbers: [int] is [Z] (unbounded).  In the runs of the script a
    [float] is represented by the exact rational that the double
    approximates, with the two exceptions of true division
    ([ZeroDivisionError], and [OverflowError] when the quotient does not
    fit a double).  The double itself is [round_double] of that rational;
    [truediv_double] and [percent_double] give the quotient and the
    percentage of the progress callback as doubles.  The [:.1f] and
    [:.2f] renderings are applied by [print]; an output line carries the
    value that is rendered.

    Standard output accepts every line, and [Path.absolute()] finds the
    working directory: [print] and [absolute] do not raise.

    [Path.mkdir] and [urlretrieve] are library code; their models follow
    CPython's [pathlib] and [urllib.request] statement by statement. *)

From Stdlib Require Import ZArith QArith Qminmax Qround Qpower Qabs.
From Stdlib Require Import Lia Lqa List Bool String Sorted SpecFloat.
From stdpp Require Import base gmap strings list fin_maps.

Local Open Scope Z_scope.

(** ** Exceptions *)

Module Exn.

(** The exception classes the script can meet.  [KeyboardInterrupt] is
    the one class here that derives from [BaseException] only. *)
Inductive cls :=
| FileExistsError | FileNotFoundError | NotADirectoryError
| IsADirectoryError | PermissionError | OSError
| URLError | HTTPError | ContentTooShortError
| ValueError | OverflowError | ZeroDivisionError
| KeyboardInterrupt.

(** An exception object: its class and [str(e)]. *)
Record t := Make { class : cls; msg : string }.

(** [isinstance(e, Exception)] *)
Definition is_Exception (e : t) : bool :=
  match class e with
  | KeyboardInterrupt => false
  | _ => true
  end.

(** [isinstance(e, OSError)]; [URLError] derives from [OSError]. *)
Definition is_OSError (e : t) : bool :=
  match class e with
  | FileExistsError | FileNotFoundError | NotADirectoryError
  | IsADirectoryError | PermissionError | OSError
  | URLError | HTTPError | ContentTooShortError => true
  | _ => false
  end.

Definition is_FileNotFoundError (e : t) : bool :=
  match class e with
  | FileNotFoundError => true
  | _ => false
  end.

Definition is_ZeroDivisionError (e : t) : bool :=
  match class e with
  | ZeroDivisionError => true
  | _ => false
  end.

End Exn.

Abbreviation exn := Exn.t.

(** The result of evaluating a Python expression. *)
Inductive result (A : Type) :=
| Ok (a : A)
| Raise (e : exn).
Arguments Ok {A} a.
Arguments Raise {A} e.

(** ** Python arithmetic *)

(** The quotient [a / b] is too large for a double when round-to-nearest
    takes it to [2^1024]: [|a / b| >= 2^1024 - 2^970]. *)
Definition DBL_LIMIT2 : Z := 2 ^ 1025 - 2 ^ 971.

Definition too_large (a b : Z) : bool :=
  DBL_LIMIT2 * Z.abs b <=? 2 * Z.abs a.

(** [a / b] on two [int]s: the exceptions of the division and, when it
    returns, the exact quotient, which the double that Python returns
    rounds ([truediv_double]). *)
Definition truediv (a b : Z) : result Q :=
  if b =? 0 then
    Raise (Exn.Make Exn.ZeroDivisionError "division by zero")
  else if too_large a b then
    Raise (Exn.Make Exn.OverflowError
             "integer division result too large for a float")
  else Ok (inject_Z a / inject_Z b)%Q.

(** [min(x, 100)]: the first argument unless the second is smaller. *)
Definition pymin (x y : Q) : Q := if Qle_bool x y then x else y.

(** ** Doubles *)

(** The integer nearest to [q], the even one of two at equal distance. *)
Definition round_half_even (q : Q) : Z :=
  let f := Qfloor q in
  match (q - inject_Z f ?= 1 # 2)%Q with
  | Lt => f
  | Gt => f + 1
  | Eq => if Z.even f then f else f + 1
  end.

(** For [q > 0], the exponent [e] with [2^e <= q < 2^(e+1)]. *)
Definition Qlog2 (q : Q) : Z :=
  let k := Z.log2 (Qnum q) - Z.log2 (Zpos (Qden q)) in
  if Qle_bool (2 ^ k) q then k else k - 1.

(** The double nearest to [q > 0], ties to even: 53 significant bits,
    and multiples of [2^-1074] in the subnormal range.  Overflow is
    decided before ([too_large]). *)
Definition round_double_pos (q : Q) : Q :=
  let u := Z.max (Qlog2 q - 52) (-1074) in
  (inject_Z (round_half_even (q / 2 ^ u)) * 2 ^ u)%Q.

Definition round_double (q : Q) : Q :=
  match (q ?= 0)%Q with
  | Eq => 0%Q
  | Gt => round_double_pos q
  | Lt => (- round_double_pos (- q))%Q
  end.

(** [a / b] on two [int]s as Python returns it: the double nearest to
    the quotient. *)
Definition truediv_double (a b : Z) : result Q :=
  match truediv a b with
  | Ok q => Ok (round_double q)
  | Raise e => Raise e
  end.

(** ** Process state and environment *)

(** A path is the list of its components.  A relative path is resolved
    against the working directory; [[]] is ["."] as a relative path and
    the root as an absolute one. *)
Abbreviation path := (list string).

(** [Path.parent] *)
Definition parent (p : path) : path := removelast p.

(** One constructor per [print] of the script. *)
Inductive line :=
| Downloading                      (* Downloading MediaPipe Pose Lite model... *)
| Url (u : string)                 (* URL: {MODEL_URL} *)
| Destination (p : path)           (* Destination: {model_path} *)
| Progress (percent mb_done mb_total : Q)
                                   (* \rProgress: {:.1f}% ({:.2f} MB / {:.2f} MB) *)
| Newline                          (* print() *)
| Success (f : string)             (* Successfully downloaded {MODEL_FILE} *)
| FileSize (mb : Q)                (*    File size: {:.2f} MB *)
| Location (p : path)              (*    Location: {model_path.absolute()} *)
| Failed (e : exn)                 (* \nDownload failed: {e} *)
| PleaseManual                     (* \nPlease download manually: *)
| ManualUrl (u : string)           (*    URL: {MODEL_URL} *)
| SaveTo (p : path).               (*    Save to: {model_path.absolute()} *)

(** A filesystem entry. *)
Inductive node :=
| Dir
| File (data : list Byte.byte).

(** What changes while the script runs.  The filesystem is keyed by
    absolute paths; [out] is standard output, oldest line first. *)
Record state := State {
  cwd : path;
  fs : gmap path node;
  out : list line;
}.

(** One call of [fp.read(bs)] on the HTTP response. *)
Inductive read_result :=
| Data (block : list Byte.byte)    (* the bytes returned; empty at end of body *)
| ReadFail (e : exn).              (* the connection breaks, or Ctrl-C *)

(** The [Content-Length] header of the response. *)
Inductive header :=
| Absent
| Numeric (n : Z)
| Malformed.                       (* not accepted by [int()] *)

(** What [urlopen(url)] does. *)
Inductive network :=
| Unreachable (e : exn)            (* DNS failure, refused connection, HTTP 4xx/5xx *)
| Response (h : header) (reads : list read_result).

(** What the outside world decides. *)
Record env := Env {
  script_file : path;              (* [__file__], absolute *)
  denied : gset path;              (* entries the process may not write to *)
  net : string -> network;
  write_fault : option nat;        (* number of the [write] that meets a full disk *)
  stat_fault : option exn;         (* [stat] fails with this error *)
}.

(** ** The monad: state threading with exceptions *)

Definition M (A : Type) : Type := state -> result A * state.

Definition ret {A} (a : A) : M A := fun s => (Ok a, s).

Definition bind {A B} (m : M A) (k : A -> M B) : M B :=
  fun s => match m s with
           | (Ok a, s') => k a s'
           | (Raise e, s') => (Raise e, s')
           end.

Definition raise {A} (e : exn) : M A := fun s => (Raise e, s).

(** Evaluation of a pure expression that may raise. *)
Definition lift {A} (r : result A) : M A := fun s => (r, s).

(** [try: body  except BaseException as e: handler(e)] *)
Definition catch {A} (body : M A) (handler : exn -> M A) : M A :=
  fun s => match body s with
           | (Ok a, s') => (Ok a, s')
           | (Raise e, s') => handler e s'
           end.

(** [try: body  except Exception as e: handler(e)] *)
Definition try_except {A} (body : M A) (handler : exn -> M A) : M A :=
  catch body (fun e => if Exn.is_Exception e then handler e else raise e).

Notation "'let*' x := m 'in' k" := (bind m (fun x => k))
  (at level 10, x name, m at level 100, k at level 200).
Notation "m >> k" := (bind m (fun _ => k))
  (at level 62, right associativity).

Definition print (l : line) : M unit :=
  fun s => (Ok tt, State (cwd s) (fs s) (out s ++ [l])).

(** [Path.absolute()] *)
Definition absolute (p : path) : M path :=
  fun s => (Ok (cwd s ++ p), s).

Definition set_fs (f : gmap path node -> gmap path node) : M unit :=
  fun s => (Ok tt, State (cwd s) (f (fs s)) (out s)).

Definition lookup_node (p : path) : M (option node) :=
  fun s => (Ok (fs s !! (cwd s ++ p)), s).

(** ** The operating system *)

Definition os_error (c : Exn.cls) (m : string) : exn := Exn.Make c m.

(** The checks the kernel makes before it creates an entry in the
    directory [parent a]. *)
Definition creatable (E : env) (a : path) (s : state) : result unit :=
  match fs s !! parent a with
  | None => Raise (os_error Exn.FileNotFoundError "No such file or directory")
  | Some (File _) => Raise (os_error Exn.NotADirectoryError "Not a directory")
  | Some Dir =>
      if decide (parent a ∈ denied E)
      then Raise (os_error Exn.PermissionError "Permission denied")
      else Ok tt
  end.

(** [os.mkdir(p)] *)
Definition os_mkdir (E : env) (p : path) : M unit :=
  fun s =>
    let a := cwd s ++ p in
    match fs s !! a with
    | Some _ => (Raise (os_error Exn.FileExistsError "File exists"), s)
    | None =>
        match creatable E a s with
        | Raise e => (Raise e, s)
        | Ok _ => set_fs (insert a Dir) s
        end
    end.

(** [Path.is_dir()] *)
Definition is_dir (p : path) : M bool :=
  let* n := lookup_node p in
  ret (match n with Some Dir => true | _ => false end).

(** [os.chdir(a)] for an absolute path. *)
Definition os_chdir (a : path) : M unit :=
  fun s =>
    match fs s !! a with
    | Some Dir => (Ok tt, State a (fs s) (out s))
    | Some (File _) =>
        (Raise (os_error Exn.NotADirectoryError "Not a directory"), s)
    | None =>
        (Raise (os_error Exn.FileNotFoundError "No such file or directory"), s)
    end.

(** [open(p, 'wb')]: the file is created, or truncated when it exists. *)
Definition open_wb (E : env) (p : path) : M unit :=
  fun s =>
    let a := cwd s ++ p in
    match fs s !! a with
    | Some Dir => (Raise (os_error Exn.IsADirectoryError "Is a directory"), s)
    | Some (File _) =>
        if decide (a ∈ denied E)
        then (Raise (os_error Exn.PermissionError "Permission denied"), s)
        else set_fs (insert a (File [])) s
    | None =>
        match creatable E a s with
        | Raise e => (Raise e, s)
        | Ok _ => set_fs (insert a (File [])) s
        end
    end.

Definition append (block : list Byte.byte) (n : node) : node :=
  match n with
  | File d => File (d ++ block)
  | Dir => Dir
  end.

(** [tfp.write(block)], the [k]-th write on the open file (from 0). *)
Definition write (E : env) (k : nat) (p : path) (block : list Byte.byte)
  : M unit :=
  if decide (write_fault E = Some k)
  then raise (os_error Exn.OSError "No space left on device")
  else fun s => set_fs (alter (append block) (cwd s ++ p)) s.

(** [p.stat().st_size] *)
Definition stat_size (E : env) (p : path) : M Z :=
  match stat_fault E with
  | Some e => raise e
  | None =>
      let* n := lookup_node p in
      match n with
      | Some (File d) => ret (Z.of_nat (length d))
      | Some Dir => ret 4096
      | None =>
          raise (os_error Exn.FileNotFoundError "No such file or directory")
      end
  end.

(** ** [pathlib.Path.mkdir] *)

(** The [except OSError] clause of [Path.mkdir]. *)
Definition mkdir_except_OSError (p : path) (exist_ok : bool) (e : exn)
  : M unit :=
  if Exn.is_OSError e then
    if exist_ok then
      let* d := is_dir p in
      if d then ret tt else raise e
    else raise e
  else raise e.

(** [p.mkdir(parents=False, exist_ok=exist_ok)] *)
Definition mkdir_leaf (E : env) (p : path) (exist_ok : bool) : M unit :=
  catch (os_mkdir E p)
    (fun e => if Exn.is_FileNotFoundError e then raise e
              else mkdir_except_OSError p exist_ok e).

(** [p.mkdir(parents=True, exist_ok=exist_ok)], by recursion on the
    components of [p] from the last one up: [rp] is [p] reversed, so that
    the parent of [p] is the tail of [rp].  ["."] is its own parent. *)
Fixpoint mkdir_parents (E : env) (rp : list string) (exist_ok : bool)
  : M unit :=
  catch (os_mkdir E (rev rp))
    (fun e =>
       if Exn.is_FileNotFoundError e then
         match rp with
         | [] => raise e
         | _ :: up =>
             mkdir_parents E up true >>
             mkdir_leaf E (rev rp) exist_ok
         end
       else mkdir_except_OSError (rev rp) exist_ok e).

Definition Path_mkdir (E : env) (p : path) (parents exist_ok : bool)
  : M unit :=
  if parents then mkdir_parents E (rev p) exist_ok
  else mkdir_leaf E p exist_ok.

(** ** [urllib.request.urlretrieve] *)

(** The block size [urlretrieve] reads with. *)
Definition bs : Z := 1024 * 8.

Abbreviation hook := (Z -> Z -> Z -> M unit).

(** The loop [while block := fp.read(bs): ...]; returns the number of
    bytes read.  [blocknum] blocks were written before. *)
Fixpoint retrieve_loop (E : env) (filename : path) (reporthook : hook)
    (size : Z) (reads : list read_result) (read : Z) (blocknum : nat)
  : M Z :=
  match reads with
  | [] => ret read
  | ReadFail e :: _ => raise e
  | Data [] :: _ => ret read
  | Data block :: rest =>
      write E blocknum filename block >>
      reporthook (Z.of_nat (S blocknum)) bs size >>
      retrieve_loop E filename reporthook size rest
        (read + Z.of_nat (length block)) (S blocknum)
  end.

(** [urlretrieve(url, filename, reporthook)] *)
Definition urlretrieve (E : env) (url : string) (filename : path)
    (reporthook : hook) : M unit :=
  match net E url with
  | Unreachable e => raise e
  | Response h reads =>
      open_wb E filename >>
      let* size :=
        match h with
        | Absent => ret (-1)
        | Numeric n => ret n
        | Malformed =>
            raise (Exn.Make Exn.ValueError
                     "invalid literal for int() with base 10")
        end in
      reporthook 0 bs size >>
      let* read := retrieve_loop E filename reporthook size reads 0 0 in
      if (0 <=? size) && (read <? size)
      then raise (Exn.Make Exn.ContentTooShortError "retrieval incomplete")
      else ret tt
  end.

(** ** The script *)

Definition MODEL_DIR : path := ["assets"; "models"]%string.
Definition MODEL_FILE : string := "pose_landmark_lite.tflite".
Definition MODEL_URL : string :=
  "https://cdn.jsdelivr.net/npm/@mediapipe/pose@0.5.1675469404/pose_landmark_lite.tflite".

(** The progress callback of [download_model]. *)
Definition show_progress (block_num block_size total_size : Z) : M unit :=
  let downloaded := block_num * block_size in
  let* percent :=
    if 0 <? total_size
    then let* q := lift (truediv (downloaded * 100) total_size) in
         ret (pymin q 100)
    else ret 0%Q in
  let* d := lift (truediv downloaded 1024) in
  let* t := lift (truediv total_size 1024) in
  print (Progress percent (d / 1024) (t / 1024)).

(** [percent] of the callback (line 34) as the double it is. *)
Definition percent_double (block_num block_size total_size : Z) : result Q :=
  let downloaded := block_num * block_size in
  if 0 <? total_size then
    match truediv_double (downloaded * 100) total_size with
    | Ok q => Ok (pymin q 100)
    | Raise e => Raise e
    end
  else Ok 0%Q.

Definition model_path : path := MODEL_DIR ++ [MODEL_FILE].

Definition download_model (E : env) : M bool :=
  Path_mkdir E MODEL_DIR true true >>
  print Downloading >>
  print (Url MODEL_URL) >>
  print (Destination model_path) >>
  try_except
    (urlretrieve E MODEL_URL model_path show_progress >>
     print Newline >>
     let* file_size := stat_size E model_path in
     print (Success MODEL_FILE) >>
     let* kb := lift (truediv file_size 1024) in
     print (FileSize (kb / 1024)) >>
     let* a := absolute model_path in
     print (Location a) >>
     ret true)
    (fun e =>
       print (Failed e) >>
       print PleaseManual >>
       print (ManualUrl MODEL_URL) >>
       let* a := absolute model_path in
       print (SaveTo a) >>
       ret false).

(** How the process ends: [sys.exit(code)], or an exception that nothing
    caught and that the interpreter reports with a traceback. *)
Inductive outcome :=
| Exit (code : Z)
| Traceback (e : exn).

(** The [if __name__ == "__main__":] block. *)
Definition main (E : env) (s : state) : outcome * state :=
  let script_dir := parent (parent (script_file E)) in
  match (os_chdir script_dir >> download_model E) s with
  | (Ok success, s') => (Exit (if success then 0 else 1), s')
  | (Raise e, s') => (Traceback e, s')
  end.

(** * Vocabulary of the statements *)

(** A relation between the state before and the state after that every
    step of a computation keeps. *)
Definition preserves {A} (R : state -> state -> Prop) (m : M A) : Prop :=
  forall s r s', m s = (r, s') -> R s s'.

(** The spec's formula for the percentage:
    [min(100, bytesTransferred / totalBytes * 100)]. *)
Definition spec_percent (bytesTransferred totalBytes : Z) : Q :=
  Qmin 100 (inject_Z bytesTransferred / inject_Z totalBytes * 100).

(** The spec's formula evaluated in doubles, in the order it is written:
    the quotient is rounded, then the product. *)
Definition spec_percent_double (bytesTransferred totalBytes : Z) : Q :=
  Qmin 100
    (round_double
       (round_double (inject_Z bytesTransferred / inject_Z totalBytes) * 100)).

(** The tenths that [:.1f] prints for the double [q]. *)
Definition tenths (q : Q) : Z := round_half_even (q * 10).

(** The value of a finite float of the Standard Library's [SpecFloat]. *)
Definition SF2Q (f : spec_float) : option Q :=
  match f with
  | S754_zero _ => Some 0%Q
  | S754_finite s m e =>
      Some ((if s then -1 else 1) * inject_Z (Zpos m) * 2 ^ e)%Q
  | _ => None
  end.

(** [a / b] by the binary64 division of [SpecFloat], for operands that
    convert to doubles without rounding. *)
Definition SFdiv64 (a b : Z) : option Q :=
  SF2Q (SFdiv 53 1024 (binary_normalize 53 1024 a 0 false)
                      (binary_normalize 53 1024 b 0 false)).

(** [round_double] and [SFdiv64] give the same double for [a / b]. *)
Definition same_double (a b : Z) : bool :=
  match SFdiv64 a b with
  | Some q => Qeq_bool q (round_double (inject_Z a / inject_Z b))
  | None => false
  end.

(** The integer converts to a finite double. *)
Definition fits_double (x : Z) : Prop := 2 * Z.abs x < DBL_LIMIT2.

(** One of the three divisions of the callback leaves the double range. *)
Definition overflows (block_num block_size total_size : Z) : bool :=
  let downloaded := block_num * block_size in
  ((0 <? total_size) && too_large (downloaded * 100) total_size)
  || too_large downloaded 1024
  || too_large total_size 1024.

(** The line the callback prints when nothing overflows. *)
Definition progress_line (block_num block_size total_size : Z) : line :=
  let downloaded := block_num * block_size in
  Progress
    (if 0 <? total_size
     then pymin (inject_Z (downloaded * 100) / inject_Z total_size) 100
     else 0)
    (inject_Z downloaded / inject_Z 1024 / 1024)
    (inject_Z total_size / inject_Z 1024 / 1024).

Definition overflow_error : exn :=
  Exn.Make Exn.OverflowError "integer division result too large for a float".

(** ** Example worlds *)

Module Example.

(** The project directory and a filesystem that holds the script. *)
Definition project : path := ["srv"; "Forma-MediaPipe"]%string.

Definition disk : gmap path node :=
  list_to_map
    [ ([] : path, Dir); (["srv"]%string, Dir); (project, Dir);
      (project ++ ["scripts"]%string, Dir) ].

(** The process at start, in the root directory. *)
Definition boot : state := State [] disk [].

(** The process after [os.chdir(script_dir)]. *)
Definition start : state := State project disk [].

Definition payload (n : nat) : list Byte.byte := repeat Byte.x41 n.

Definition script : path :=
  project ++ ["scripts"; "download_mediapipe_lite.py"]%string.

(** A server that sends five bytes in two blocks. *)
Definition online : env :=
  Env script ∅
    (fun _ => Response (Numeric 5) [Data (payload 3); Data (payload 2)])
    None None.

(** A second version of the file, seven bytes without content length. *)
Definition online2 : env :=
  Env script ∅
    (fun _ => Response Absent [Data (payload 4); Data (payload 3); Data []])
    None None.

(** Name resolution fails. *)
Definition dns_error : exn :=
  Exn.Make Exn.URLError "<urlopen error [Errno -2] Name or service not known>".

Definition offline : env :=
  Env script ∅ (fun _ => Unreachable dns_error) None None.

(** The project directory is write protected. *)
Definition readonly : env :=
  Env script {[ project ]}
    (fun _ => Response (Numeric 5) [Data (payload 3); Data (payload 2)])
    None None.

(** [stat] on the downloaded file fails. *)
Definition stat_error : exn := Exn.Make Exn.OSError "Input/output error".

Definition unreadable : env :=
  Env script ∅
    (fun _ => Response (Numeric 5) [Data (payload 3); Data (payload 2)])
    None (Some stat_error).

(** The server announces a body of [2^1100] bytes. *)
Definition huge : env :=
  Env script ∅
    (fun _ => Response (Numeric (2 ^ 1100)) [Data (payload 3); Data (payload 2)])
    None None.

(** The disk of [start] with the destination directory in place. *)
Definition prepared : state :=
  State project
    (<[project ++ MODEL_DIR := Dir]>
       (<[project ++ ["assets"]%string := Dir]> disk)) [].

End Example.

(** ** Runs of the script *)

(** The state after the lines [ls] are printed. *)
Definition say (ls : list line) (s : state) : state :=
  State (cwd s) (fs s) (out s ++ ls).

(** What the script prints before the transfer. *)
Definition announcement : list line :=
  [Downloading; Url MODEL_URL; Destination model_path].

(** The manual-recovery instructions of the [except] clause for the error
    [e], in the working directory [d]. *)
Definition recovery (e : exn) (d : path) : list line :=
  [Failed e; PleaseManual; ManualUrl MODEL_URL; SaveTo (d ++ model_path)].

(** The [except Exception as e] clause, entered in state [s] with [e]. *)
Definition failed (e : exn) (s : state) : result bool * state :=
  if Exn.is_Exception e then (Ok false, say (recovery e (cwd s)) s)
  else (Raise e, s).

(** The bytes the loop of [urlretrieve] reads until the body ends. *)
Fixpoint body (reads : list read_result) : list Byte.byte :=
  match reads with
  | Data [] :: _ => []
  | Data block :: rest => block ++ body rest
  | _ => []
  end.

(** The number of blocks the loop reads until the body ends. *)
Fixpoint nblocks (reads : list read_result) : nat :=
  match reads with
  | Data [] :: _ => O
  | Data _ :: rest => S (nblocks rest)
  | _ => O
  end.

(** [fp.read(bs)] returns at most [bs] bytes. *)
Definition blocks_within (reads : list read_result) : Prop :=
  Forall (fun r => match r with
                   | Data block => Z.of_nat (length block) <= bs
                   | ReadFail _ => True
                   end) reads.

(** The percentages of the progress reports among the lines [ls]. *)
Fixpoint percents (ls : list line) : list Q :=
  match ls with
  | [] => []
  | Progress p _ _ :: rest => p :: percents rest
  | _ :: rest => percents rest
  end.

(** Nothing is printed and the working directory stays. *)
Definition quiet (s s' : state) : Prop :=
  cwd s' = cwd s /\ out s' = out s.

(** The working directory stays and no entry of the filesystem other
    than the relative path [f] changes. *)
Definition frame (f : path) (s s' : state) : Prop :=
  cwd s' = cwd s /\
  forall p, p <> cwd s ++ f -> fs s' !! p = fs s !! p.

(** [size] as [urlretrieve] takes it from the header. *)
Definition header_size (h : header) : Z :=
  match h with
  | Numeric n => n
  | _ => -1
  end.

(** The reports of a transfer of [n] blocks: one before the first read,
    then one after each block. *)
Definition reports (size : Z) (n : nat) : list line :=
  map (fun j => progress_line (Z.of_nat j) bs size) (seq 0 (S n)).

(** The percentage of the report after [j] blocks of a transfer of
    [size] bytes. *)
Definition percent_at (size : Z) (j : nat) : Q :=
  if 0 <? size
  then pymin (inject_Z (Z.of_nat j * bs * 100) / inject_Z size) 100
  else 0.

(** What the script prints after a transfer of [n] bytes. *)
Definition success_report (n : Z) (d : path) : list line :=
  [Newline; Success MODEL_FILE;
   FileSize (inject_Z n / inject_Z 1024 / 1024);
   Location (d ++ model_path)].

(** ** Further vocabulary *)

(** The body ends (an empty read, or no read left) before any read fails. *)
Fixpoint clean (reads : list read_result) : bool :=
  match reads with
  | [] => true
  | Data [] :: _ => true
  | Data _ :: rest => clean rest
  | ReadFail _ :: _ => false
  end.

(** From [s] to [s'] the filesystem only gained directories, each on the
    way from the working directory down to the relative path [t]. *)
Definition grows (t : path) (s s' : state) : Prop :=
  cwd s' = cwd s /\
  out s' = out s /\
  forall p,
    fs s' !! p = fs s !! p \/
    (fs s !! p = None /\ fs s' !! p = Some Dir /\
     exists q, q `prefix_of` t /\ p = cwd s ++ q).

(** [ContentTooShortError] as [urlretrieve] raises it. *)
Definition too_short_error : exn :=
  Exn.Make Exn.ContentTooShortError "retrieval incomplete".

(** ** More example worlds *)

Module Scenario.

(** Ctrl-C arrives after the first block. *)
Definition interrupt : exn := Exn.Make Exn.KeyboardInterrupt "".

Definition interrupted : env :=
  Env Example.script ∅
    (fun _ => Response (Numeric 5)
                [Data (Example.payload 3); ReadFail interrupt])
    None None.

(** The server announces ten bytes and closes after five. *)
Definition short : env :=
  Env Example.script ∅
    (fun _ => Response (Numeric 10)
                [Data (Example.payload 3); Data (Example.payload 2)])
    None None.

(** The disk fills up at the second write. *)
Definition diskfull : env :=
  Env Example.script ∅
    (fun _ => Response (Numeric 5)
                [Data (Example.payload 3); Data (Example.payload 2)])
    (Some 1%nat) None.

(** An older download of nine bytes is at the destination. *)
Definition stale : state :=
  State Example.project
    (<[Example.project ++ model_path := File (repeat Byte.x42 9)]>
       (fs Example.prepared)) [].

(** A regular file sits where the model directory should be. *)
Definition blocked : state :=
  State Example.project
    (<[Example.project ++ MODEL_DIR := File []]>
       (<[Example.project ++ ["assets"]%string := Dir]> Example.disk)) [].

End Scenario.

(** The server answers the request for [url] with the header [h] and the
    reads [reads], the body arrives whole, the disk takes every write, and
    the byte counts reported stay in the range of a double. *)
Definition served (E : env) (url : string) (h : header)
    (reads : list read_result) : Prop :=
  net E url = Response h reads /\
  h <> Malformed /\
  clean reads = true /\
  write_fault E = None /\
  fits_double (Z.of_nat (nblocks reads) * bs * 100) /\
  fits_double (header_size h).

(** The destination of the download can be opened for writing in [s]:
    it is no directory, and neither it nor its directory is write
    protected. *)
Definition writable (E : env) (s : state) : Prop :=
  fs s !! (cwd s ++ model_path) ≠ Some Dir /\
  (cwd s ++ MODEL_DIR ∉ denied E) /\
  (cwd s ++ model_path ∉ denied E).

(** [urlretrieve] found fewer bytes than the header announced. *)
Definition short (h : header) (reads : list read_result) : bool :=
  (0 <=? header_size h) && (Z.of_nat (length (body reads)) <? header_size h).

(** * Proofs *)

(** ** Running monadic code *)

Lemma bind_inv {A B} (m : M A) (k : A -> M B) s r s' :
  bind m k s = (r, s') ->
  (exists a s1, m s = (Ok a, s1) /\ k a s1 = (r, s')) \/
  (exists e, m s = (Raise e, s') /\ r = Raise e).
Proof.
  unfold bind. destruct (m s) as [[a|e] s1]; intros H.
  - left. eauto.
  - right. inversion H; subst. eauto.
Qed.

Lemma catch_inv {A} (m : M A) (h : exn -> M A) s r s' :
  catch m h s = (r, s') ->
  (exists a, m s = (Ok a, s') /\ r = Ok a) \/
  (exists e s1, m s = (Raise e, s1) /\ h e s1 = (r, s')).
Proof.
  unfold catch. destruct (m s) as [[a|e] s1]; intros H.
  - left. inversion H; subst. eauto.
  - right. eauto.
Qed.

Section Preserves.
Context (R : state -> state -> Prop) `{!PreOrder R}.

Lemma preserves_ret {A} (a : A) : preserves R (ret a).
Proof. intros s r s' H. inversion H; subst. reflexivity. Qed.

Lemma preserves_raise {A} e : preserves R (@raise A e).
Proof. intros s r s' H. inversion H; subst. reflexivity. Qed.

Lemma preserves_lift {A} (x : result A) : preserves R (lift x).
Proof. intros s r s' H. inversion H; subst. reflexivity. Qed.

Lemma preserves_bind {A B} (m : M A) (k : A -> M B) :
  preserves R m -> (forall a, preserves R (k a)) -> preserves R (bind m k).
Proof.
  intros Hm Hk s r s' H.
  destruct (bind_inv _ _ _ _ _ H) as [(a & s1 & H1 & H2)|(e & H1 & _)].
  - transitivity s1; [eapply Hm | eapply Hk]; eauto.
  - eapply Hm; eauto.
Qed.

Lemma preserves_catch {A} (m : M A) (h : exn -> M A) :
  preserves R m -> (forall e, preserves R (h e)) -> preserves R (catch m h).
Proof.
  intros Hm Hh s r s' H.
  destruct (catch_inv _ _ _ _ _ H) as [(a & H1 & _)|(e & s1 & H1 & H2)].
  - eapply Hm; eauto.
  - transitivity s1; [eapply Hm | eapply Hh]; eauto.
Qed.

Lemma preserves_try_except {A} (m : M A) (h : exn -> M A) :
  preserves R m -> (forall e, preserves R (h e)) ->
  preserves R (try_except m h).
Proof.
  intros Hm Hh. apply preserves_catch; [exact Hm|].
  intros e. destruct (Exn.is_Exception e); [apply Hh | apply preserves_raise].
Qed.
End Preserves.

(** ** The progress callback *)

Lemma print_run l s : print l s = (Ok tt, say [l] s).
Proof. reflexivity. Qed.

Lemma say_say l1 l2 s : say l2 (say l1 s) = say (l1 ++ l2) s.
Proof. unfold say. cbn. rewrite app_assoc. reflexivity. Qed.

Lemma show_progress_run bn bsz ts s :
  show_progress bn bsz ts s =
  if overflows bn bsz ts then (Raise overflow_error, s)
  else print (progress_line bn bsz ts) s.
Proof.
  unfold show_progress, overflows, progress_line, bind, lift, truediv, ret.
  change (1024 =? 0) with false. cbv iota.
  destruct (0 <? ts) eqn:Hts; cbn [andb orb].
  - assert ((ts =? 0) = false) as -> by lia.
    destruct (too_large (bn * bsz * 100) ts); cbn [orb]; [reflexivity|].
    destruct (too_large (bn * bsz) 1024); cbn [orb]; [reflexivity|].
    destruct (too_large ts 1024); reflexivity.
  - destruct (too_large (bn * bsz) 1024); cbn [orb]; [reflexivity|].
    destruct (too_large ts 1024); reflexivity.
Qed.

Lemma DBL_LIMIT2_pos : 0 < DBL_LIMIT2.
Proof. reflexivity. Qed.

Lemma too_large_fits a b : fits_double a -> 1 <= Z.abs b -> too_large a b = false.
Proof.
  unfold fits_double, too_large. intros Ha Hb.
  pose proof DBL_LIMIT2_pos. apply Z.leb_gt. nia.
Qed.

Lemma fits_double_shrink a b : Z.abs a <= Z.abs b -> fits_double b -> fits_double a.
Proof. unfold fits_double. lia. Qed.

Lemma overflows_fits bn bsz ts :
  fits_double (bn * bsz * 100) -> fits_double ts -> overflows bn bsz ts = false.
Proof.
  intros Hd Ht. unfold overflows.
  assert (fits_double (bn * bsz)) as Hd'.
  { eapply fits_double_shrink; [|exact Hd]. lia. }
  rewrite (too_large_fits (bn * bsz) 1024), (too_large_fits ts 1024)
    by (assumption || lia).
  destruct (0 <? ts) eqn:Hts; [|reflexivity].
  rewrite too_large_fits by (assumption || lia). reflexivity.
Qed.

Lemma pymin_Qmin x y : (pymin x y == Qmin y x)%Q.
Proof.
  unfold pymin. destruct (Qle_bool x y) eqn:Hxy.
  - apply Qle_bool_iff in Hxy. symmetry. apply Q.min_r. exact Hxy.
  - symmetry. apply Q.min_l. apply Qlt_le_weak, Qnot_le_lt.
    intros Hle. apply Qle_bool_iff in Hle. congruence.
Qed.

Lemma percent_formula d ts :
  0 < ts ->
  (pymin (inject_Z (d * 100) / inject_Z ts) 100 == spec_percent d ts)%Q.
Proof.
  intros Hts. unfold spec_percent. rewrite pymin_Qmin.
  assert (~ inject_Z ts == 0)%Q as Hnz.
  { unfold Qeq. cbn. lia. }
  assert (inject_Z (d * 100) / inject_Z ts == inject_Z d / inject_Z ts * 100)%Q
    as ->; [|reflexivity].
  rewrite inject_Z_mult. change (inject_Z 100) with 100%Q. field. exact Hnz.
Qed.

(** ** Rounding to the nearest double *)

Lemma Qfloor_bounds x :
  (inject_Z (Qfloor x) <= x /\ x < inject_Z (Qfloor x) + 1)%Q.
Proof.
  split; [apply Qfloor_le|].
  pose proof (Qlt_floor x) as H. rewrite inject_Z_plus in H. exact H.
Qed.

Lemma round_half_even_cases x :
  (round_half_even x = Qfloor x /\ (x - inject_Z (Qfloor x) <= 1 # 2)%Q) \/
  (round_half_even x = Qfloor x + 1 /\ (1 # 2 <= x - inject_Z (Qfloor x))%Q).
Proof.
  unfold round_half_even. cbv zeta.
  destruct (Qcompare_spec (x - inject_Z (Qfloor x)) (1 # 2)) as [He|Hl|Hg].
  - destruct (Z.even (Qfloor x)); [left | right]; split; try reflexivity;
      rewrite He; apply Qle_refl.
  - left. split; [reflexivity | apply Qlt_le_weak, Hl].
  - right. split; [reflexivity | apply Qlt_le_weak, Hg].
Qed.

Lemma round_half_even_error x :
  (Qabs (inject_Z (round_half_even x) - x) <= 1 # 2)%Q.
Proof.
  destruct (Qfloor_bounds x) as [Hlo Hhi].
  apply Qabs_Qle_condition.
  destruct (round_half_even_cases x) as [[-> H]|[-> H]];
    rewrite ?inject_Z_plus; change (inject_Z 1) with 1%Q;
    set (f := inject_Z (Qfloor x)) in *; clearbody f;
    split; lra.
Qed.

Lemma round_half_even_ge n x : (inject_Z n <= x)%Q -> n <= round_half_even x.
Proof.
  intros Hn. assert (n <= Qfloor x) as Hf.
  { rewrite <- (Qfloor_Z n). apply Qfloor_resp_le, Hn. }
  destruct (round_half_even_cases x) as [[-> _]|[-> _]]; lia.
Qed.

Lemma round_half_even_le n x : (x <= inject_Z n)%Q -> round_half_even x <= n.
Proof.
  intros Hn. destruct (Qfloor_bounds x) as [Hlo Hhi].
  destruct (round_half_even_cases x) as [[-> _]|[-> H]].
  - rewrite Zle_Qle. lra.
  - assert (Qfloor x < n); [|lia]. rewrite Zlt_Qlt. lra.
Qed.

Lemma two_neq_0 : ~ (2 == 0)%Q.
Proof. discriminate. Qed.

Lemma pow2_pos u : (0 < 2 ^ u)%Q.
Proof. apply Qpower_0_lt. reflexivity. Qed.

Lemma Qdiv_le_cross A B N D :
  (0 < B)%Q -> (0 < D)%Q -> (A * D <= N * B)%Q -> (A / B <= N / D)%Q.
Proof.
  intros HB HD H. apply Qle_shift_div_r; [exact HB|].
  assert (N / D * B == N * B / D)%Q as -> by (field; lra).
  apply Qle_shift_div_l; assumption.
Qed.

(** [Qlog2 q] is not above the binary logarithm of [q]. *)
Lemma Qlog2_lower q : (0 < q)%Q -> (2 ^ Qlog2 q <= q)%Q.
Proof.
  destruct q as [n d]. intros Hq.
  assert (0 < n) as Hn by (unfold Qlt in Hq; cbn in Hq; lia).
  unfold Qlog2. cbn [Qnum Qden].
  destruct (Qle_bool _ _) eqn:Hle; [apply Qle_bool_iff, Hle|].
  clear Hle.
  pose proof (Z.log2_spec n Hn) as [Hn1 _].
  pose proof (Z.log2_spec (Zpos d) (Pos2Z.is_pos d)) as [_ Hd2].
  pose proof (Z.log2_nonneg n) as Hln.
  pose proof (Z.log2_nonneg (Zpos d)) as Hld.
  replace (Z.log2 n - Z.log2 (Z.pos d) - 1)
    with (Z.log2 n - (Z.log2 (Z.pos d) + 1)) by lia.
  rewrite Qpower_minus by apply two_neq_0.
  change 2%Q with (inject_Z 2).
  rewrite <- !Zpower_Qpower by lia.
  rewrite (Qmake_Qdiv n d).
  apply Qdiv_le_cross.
  - rewrite <- (Zlt_Qlt 0). lia.
  - rewrite <- (Zlt_Qlt 0). lia.
  - rewrite <- !inject_Z_mult, <- Zle_Qle. nia.
Qed.

Lemma Qdiv_lt_cross A B N D :
  (0 < B)%Q -> (0 < D)%Q -> (A * D < N * B)%Q -> (A / B < N / D)%Q.
Proof.
  intros HB HD H. apply Qlt_shift_div_r; [exact HB|].
  assert (N / D * B == N * B / D)%Q as -> by (field; lra).
  apply Qlt_shift_div_l; assumption.
Qed.

(** [Qlog2 q] is the binary logarithm of [q] rounded down: the
    significand [q / 2^(Qlog2 q - 52)] has 53 bits. *)
Lemma Qlog2_upper q : (0 < q)%Q -> (q < 2 ^ (Qlog2 q + 1))%Q.
Proof.
  destruct q as [n d]. intros Hq.
  assert (0 < n) as Hn by (unfold Qlt in Hq; cbn in Hq; lia).
  unfold Qlog2. cbn [Qnum Qden].
  destruct (Qle_bool _ _) eqn:Hle.
  - clear Hle.
    pose proof (Z.log2_spec n Hn) as [_ Hn2].
    pose proof (Z.log2_spec (Zpos d) (Pos2Z.is_pos d)) as [Hd1 _].
    pose proof (Z.log2_nonneg n) as Hln.
    pose proof (Z.log2_nonneg (Zpos d)) as Hld.
    replace (Z.log2 n - Z.log2 (Z.pos d) + 1)
      with (Z.log2 n + 1 - Z.log2 (Z.pos d)) by lia.
    rewrite Qpower_minus by apply two_neq_0.
    change 2%Q with (inject_Z 2).
    rewrite <- !Zpower_Qpower by lia.
    rewrite (Qmake_Qdiv n d).
    apply Qdiv_lt_cross.
    + rewrite <- (Zlt_Qlt 0). lia.
    + rewrite <- (Zlt_Qlt 0). lia.
    + rewrite <- !inject_Z_mult, <- Zlt_Qlt. nia.
  - replace (Z.log2 n - Z.log2 (Z.pos d) - 1 + 1)
      with (Z.log2 n - Z.log2 (Z.pos d)) by lia.
    apply Qnot_le_lt. intros H. apply Qle_bool_iff in H. congruence.
Qed.

Lemma pow2_neg_inject u : u <= 0 -> (2 ^ u == / inject_Z (2 ^ (- u)))%Q.
Proof.
  intros Hu. replace u with (- - u) at 1 by lia.
  rewrite Qpower_opp. change 2%Q with (inject_Z 2).
  rewrite <- Zpower_Qpower by lia. reflexivity.
Qed.

Lemma ulp_small q :
  (0 < q)%Q -> (q <= 100)%Q -> Z.max (Qlog2 q - 52) (-1074) <= -46.
Proof.
  intros Hq Hle. pose proof (Qlog2_lower q Hq) as Hlo.
  assert (Qlog2 q < 7); [|lia].
  apply (Qpower_lt_compat_l_inv 2); [|reflexivity].
  eapply Qle_lt_trans; [exact Hlo|].
  eapply Qle_lt_trans; [exact Hle|]. reflexivity.
Qed.

Lemma round_double_pos_nonneg q : (0 <= q)%Q -> (0 <= round_double_pos q)%Q.
Proof.
  intros Hq. unfold round_double_pos. cbv zeta.
  set (u := Z.max _ _). pose proof (pow2_pos u) as Hp.
  apply Qmult_le_0_compat; [|lra].
  rewrite <- (Zle_Qle 0). apply round_half_even_ge.
  apply Qle_shift_div_l; [exact Hp|].
  change (inject_Z 0) with 0%Q. rewrite Qmult_0_l. exact Hq.
Qed.

Lemma round_double_pos_error q :
  (0 < q)%Q -> (q <= 100)%Q ->
  (Qabs (round_double_pos q - q) <= 2 ^ (-47))%Q.
Proof.
  intros Hq Hle. pose proof (ulp_small q Hq Hle) as Hu.
  unfold round_double_pos. cbv zeta. set (u := Z.max _ _) in *.
  pose proof (pow2_pos u) as Hp.
  pose proof (round_half_even_error (q / 2 ^ u)) as Herr.
  set (m := inject_Z (round_half_even (q / 2 ^ u))) in *.
  assert (m * 2 ^ u - q == (m - q / 2 ^ u) * 2 ^ u)%Q as -> by (field; lra).
  rewrite Qabs_Qmult, (Qabs_pos (2 ^ u)) by lra.
  assert (2 ^ u <= 2 ^ (-46))%Q as Hpu
    by (apply Qpower_le_compat_l; [exact Hu | discriminate]).
  assert (2 ^ (-47) == (1 # 2) * 2 ^ (-46))%Q as -> by reflexivity.
  apply Qmult_le_compat_nonneg; split; try assumption.
  - apply Qabs_nonneg.
  - lra.
Qed.

Lemma round_double_pos_le_100 q :
  (0 < q)%Q -> (q <= 100)%Q -> (round_double_pos q <= 100)%Q.
Proof.
  intros Hq Hle. pose proof (ulp_small q Hq Hle) as Hu.
  unfold round_double_pos. cbv zeta. set (u := Z.max _ _) in *.
  pose proof (pow2_neg_inject u ltac:(lia)) as Hpow.
  assert (0 < 2 ^ (- u)) as Hw by (apply Z.pow_pos_nonneg; lia).
  set (P := inject_Z (2 ^ (- u))) in *.
  assert (0 < P)%Q as HP by (unfold P; rewrite <- (Zlt_Qlt 0); exact Hw).
  assert (round_half_even (q / 2 ^ u) <= 100 * 2 ^ (- u)) as Hm.
  { apply round_half_even_le. rewrite inject_Z_mult. fold P.
    rewrite Hpow. change (inject_Z 100) with 100%Q.
    unfold Qdiv. rewrite Qinv_involutive.
    apply Qmult_le_compat_r; lra. }
  set (m := round_half_even (q / 2 ^ u)) in *.
  rewrite Zle_Qle, inject_Z_mult in Hm. fold P in Hm.
  change (inject_Z 100) with 100%Q in Hm. rewrite Hpow.
  apply Qle_shift_div_r; [exact HP | exact Hm].
Qed.

Lemma round_double_pos_ge_100 q :
  (100 <= q)%Q -> (100 <= round_double_pos q)%Q.
Proof.
  intros Hge. assert (0 < q)%Q as Hq by lra.
  pose proof (Qlog2_lower q Hq) as Hlo.
  unfold round_double_pos. cbv zeta. set (u := Z.max _ _) in *.
  pose proof (pow2_pos u) as Hp.
  destruct (Z_le_gt_dec u 0) as [Hu|Hu].
  - pose proof (pow2_neg_inject u Hu) as Hpow.
    assert (0 < 2 ^ (- u)) as Hw by (apply Z.pow_pos_nonneg; lia).
    set (P := inject_Z (2 ^ (- u))) in *.
    assert (0 < P)%Q as HP by (unfold P; rewrite <- (Zlt_Qlt 0); exact Hw).
    assert (100 * 2 ^ (- u) <= round_half_even (q / 2 ^ u)) as Hm.
    { apply round_half_even_ge. rewrite inject_Z_mult. fold P.
      rewrite Hpow. change (inject_Z 100) with 100%Q.
      unfold Qdiv. rewrite Qinv_involutive.
      apply Qmult_le_compat_r; lra. }
    set (m := round_half_even (q / 2 ^ u)) in *.
    rewrite Zle_Qle, inject_Z_mult in Hm. fold P in Hm.
    change (inject_Z 100) with 100%Q in Hm. rewrite Hpow.
    apply Qle_shift_div_l; [exact HP | exact Hm].
  - assert (u = Qlog2 q - 52) as Hue by (unfold u in *; lia).
    assert (2 ^ 52 <= round_half_even (q / 2 ^ u)) as Hm.
    { apply round_half_even_ge. apply Qle_shift_div_l; [exact Hp|].
      rewrite Zpower_Qpower by lia. change (inject_Z 2) with 2%Q.
      rewrite <- Qpower_plus by apply two_neq_0.
      replace (52 + u) with (Qlog2 q) by lia. exact Hlo. }
    rewrite Zle_Qle in Hm.
    assert (1 <= 2 ^ u)%Q as Hone.
    { change 1%Q with (2 ^ 0)%Q. apply Qpower_le_compat_l; [lia | discriminate]. }
    set (m := inject_Z (round_half_even (q / 2 ^ u))) in *.
    assert (100 <= inject_Z (2 ^ 52))%Q as H52 by (vm_compute; discriminate).
    assert (100 * 1 <= m * 2 ^ u)%Q; [|lra].
    apply Qmult_le_compat_nonneg; split; lra.
Qed.

(** Rounding does not cross 100, which is a double. *)
Lemma round_double_le_100 q : (q <= 100)%Q -> (round_double q <= 100)%Q.
Proof.
  intros Hle. unfold round_double.
  destruct (Qcompare_spec q 0) as [He|Hl|Hg].
  - discriminate.
  - pose proof (round_double_pos_nonneg (- q) ltac:(lra)). lra.
  - apply round_double_pos_le_100; assumption.
Qed.

Lemma round_double_ge_100 q : (100 <= q)%Q -> (100 <= round_double q)%Q.
Proof.
  intros Hge. unfold round_double.
  destruct (Qcompare_spec q 0) as [He|Hl|Hg]; [lra | lra |].
  apply round_double_pos_ge_100, Hge.
Qed.

(** Up to 100 a double is within [2^-47] of the number it rounds. *)
Lemma round_double_error q :
  (0 <= q)%Q -> (q <= 100)%Q -> (Qabs (round_double q - q) <= 2 ^ (-47))%Q.
Proof.
  intros Hq Hle. unfold round_double.
  destruct (Qcompare_spec q 0) as [He|Hl|Hg]; [|lra|].
  - rewrite He. vm_compute. discriminate.
  - apply round_double_pos_error; assumption.
Qed.

(** [round_double] computes what the binary64 division of the Standard
    Library's [SpecFloat] computes, on a sample of quotients: exact and
    inexact ones, a tie, a negative one, a subnormal one. *)
Lemma round_double_matches_SpecFloat :
  forallb (fun ab => same_double (fst ab) (snd ab))
    [ (7 * bs * 100, 16384000); (7 * bs, 16384000); (1, 3); (100, 3);
      (35, 100); (8192 * 100, 5); (2 ^ 52 + 1, 2); (2 ^ 53 - 1, 2 ^ 53);
      (-7, 3); (123456789, 1024); (1, 2 ^ 60); (3, 10 ^ 15);
      (1, 2 ^ 53 - 1); (2 ^ 53 - 1, 3) ] = true.
Proof. vm_compute. reflexivity. Qed.

Lemma percent_double_run bn bsz ts :
  percent_double bn bsz ts =
  if 0 <? ts then
    if too_large (bn * bsz * 100) ts then Raise overflow_error
    else Ok (pymin (round_double (inject_Z (bn * bsz * 100) / inject_Z ts)) 100)
  else Ok 0%Q.
Proof.
  unfold percent_double, truediv_double, truediv.
  destruct (0 <? ts) eqn:Hts; [|reflexivity].
  assert ((ts =? 0) = false) as -> by lia.
  destruct (too_large _ _); reflexivity.
Qed.

(** The double reported is the rounding of the value the line carries. *)
Lemma pymin_round_double x :
  (pymin (round_double x) 100 == round_double (pymin x 100))%Q.
Proof.
  assert (round_double 100 == 100)%Q as H100 by (vm_compute; reflexivity).
  unfold pymin at 2. destruct (Qle_bool x 100) eqn:Hx.
  - apply Qle_bool_iff in Hx. apply round_double_le_100 in Hx.
    unfold pymin. apply Qle_bool_iff in Hx. rewrite Hx. reflexivity.
  - assert (100 <= x)%Q as Hge.
    { apply Qlt_le_weak, Qnot_le_lt. intros Hle.
      apply Qle_bool_iff in Hle. congruence. }
    apply round_double_ge_100 in Hge. rewrite H100.
    unfold pymin. destruct (Qle_bool (round_double x) 100) eqn:Hr;
      [|reflexivity].
    apply Qle_bool_iff in Hr. apply Qle_antisym; assumption.
Qed.

(** C3, as stated, fails: the callback divides once,
    [downloaded * 100 / total_size], and the result is a double.  After 7
    blocks of a total of 16384000 bytes the exact percentage is 7/20; the
    double reported is below it and prints as 0.3, where the formula of
    the claim gives 0.35, which prints as 0.4, also when the formula is
    evaluated in doubles in the order it is written. *)
Lemma show_progress_rounding_counterexample :
  exists reported,
    fst (show_progress 7 bs 16384000 Example.start) = Ok tt /\
    percent_double 7 bs 16384000 = Ok reported /\
    (spec_percent (7 * bs) 16384000 == 7 # 20)%Q /\
    (reported < spec_percent (7 * bs) 16384000)%Q /\
    (reported < spec_percent_double (7 * bs) 16384000)%Q /\
    tenths reported = 3 /\
    tenths (spec_percent (7 * bs) 16384000) = 4 /\
    tenths (spec_percent_double (7 * bs) 16384000) = 4.
Proof.
  eexists. split; [vm_compute; reflexivity|].
  split; [vm_compute; reflexivity|].
  repeat split; vm_compute; reflexivity.
Qed.

(** C3, amended. Every report of the progress callback relates to the
    formula [min(100, bytesTransferred / totalBytes * 100)], with
    [bytesTransferred = block_num * block_size], as follows.  When the
    total is positive the percentage reported is [min(100, q)] for the
    double [q] nearest to the exact quotient
    [bytesTransferred * 100 / totalBytes]; for a non-negative byte count
    it is within [2^-47] of the formula, not always equal to it.  When
    the total is unknown (negative) or zero the percentage reported is 0.
    A report is made whenever the byte counts are in the range of a
    double. *)
Theorem show_progress_percent (block_num block_size total_size : Z) (s : state) :
  (fits_double (block_num * block_size * 100) -> fits_double total_size ->
   exists l, show_progress block_num block_size total_size s
             = (Ok tt, State (cwd s) (fs s) (out s ++ [l]))) /\
  (forall r s', show_progress block_num block_size total_size s = (Ok r, s') ->
     exists percent mb_done mb_total reported,
       s' = State (cwd s) (fs s) (out s ++ [Progress percent mb_done mb_total]) /\
       percent_double block_num block_size total_size = Ok reported /\
       (reported == round_double percent)%Q /\
       (0 < total_size ->
        (reported ==
         Qmin 100 (round_double (inject_Z (block_num * block_size * 100)
                                 / inject_Z total_size)))%Q /\
        (0 <= block_num * block_size ->
         (Qabs (reported - spec_percent (block_num * block_size) total_size)
          <= 2 ^ (-47))%Q)) /\
       (total_size <= 0 -> reported = 0%Q)).
Proof.
  rewrite show_progress_run. split.
  - intros Hd Ht. rewrite overflows_fits by assumption. eexists. reflexivity.
  - intros r s'. destruct (overflows _ _ _) eqn:Hov; [discriminate|].
    unfold print, progress_line. intros H. inversion H; subst.
    rewrite percent_double_run.
    destruct (0 <? total_size) eqn:Hts.
    + assert (too_large (block_num * block_size * 100) total_size = false)
        as Htl.
      { unfold overflows in Hov. rewrite Hts in Hov. cbn [andb] in Hov.
        destruct (too_large (block_num * block_size * 100) total_size);
          [discriminate | reflexivity]. }
      rewrite Htl.
      set (x := (inject_Z (block_num * block_size * 100)
                 / inject_Z total_size)%Q).
      do 4 eexists. split; [reflexivity|]. split; [reflexivity|].
      split; [apply pymin_round_double|]. split; [|lia].
      intros Hpos. split; [apply pymin_Qmin|].
      intros Hd.
      pose proof (percent_formula (block_num * block_size) total_size Hpos)
        as Hspec. fold x in Hspec. rewrite <- Hspec.
      assert (0 <= x)%Q as Hx0.
      { unfold x, Qdiv. apply Qmult_le_0_compat.
        - change 0%Q with (inject_Z 0). rewrite <- Zle_Qle. lia.
        - apply Qinv_le_0_compat. change 0%Q with (inject_Z 0).
          rewrite <- Zle_Qle. lia. }
      rewrite pymin_round_double. unfold pymin.
      destruct (Qle_bool x 100) eqn:Hx.
      * apply Qle_bool_iff in Hx. apply round_double_error; assumption.
      * assert (round_double 100 - 100 == 0)%Q as ->
          by (vm_compute; reflexivity).
        vm_compute. discriminate.
    + do 4 eexists. split; [reflexivity|]. split; [reflexivity|].
      split; [vm_compute; reflexivity|]. split; [lia | reflexivity].
Qed.

Lemma show_progress_percent_witness :
  exists percent mb_done mb_total reported,
    show_progress 3 bs 100000 Example.start
    = (Ok tt, State Example.project Example.disk
                [Progress percent mb_done mb_total]) /\
    percent_double 3 bs 100000 = Ok reported /\
    (Qabs (reported - spec_percent (3 * bs) 100000) <= 2 ^ (-47))%Q.
Proof.
  destruct (show_progress_percent 3 bs 100000 Example.start) as [Hrun Hval].
  destruct Hrun as [l Hl]; [vm_compute; reflexivity | vm_compute; reflexivity |].
  destruct (Hval _ _ Hl) as (p & d & t & rep & Hs & Hrep & _ & Hp & _).
  exists p, d, t, rep. split; [rewrite Hl, Hs; reflexivity|].
  split; [exact Hrep|].
  destruct Hp as [_ Hbound]; [lia|].
  apply Hbound. vm_compute. discriminate.
Defined.

(** C10, as stated, fails: for a total whose magnitude is outside the
    range of a double the conversion to MB raises [OverflowError], also
    when the total is not positive, and nothing is reported. *)
Lemma show_progress_overflow_counterexample :
  show_progress 0 bs (- 2 ^ 1100) Example.start
  = (Raise overflow_error, Example.start) /\
  ~ (forall block_num block_size total_size s,
       total_size <= 0 ->
       exists r s', show_progress block_num block_size total_size s = (Ok r, s')).
Proof.
  assert (show_progress 0 bs (- 2 ^ 1100) Example.start
          = (Raise overflow_error, Example.start)) as Hrun.
  { rewrite show_progress_run.
    assert (overflows 0 bs (- 2 ^ 1100) = true) as -> by (vm_compute; reflexivity).
    reflexivity. }
  split; [exact Hrun|].
  intros Hall.
  destruct (Hall 0 bs (- 2 ^ 1100) Example.start) as (r & s' & Hok).
  - vm_compute. discriminate.
  - rewrite Hrun in Hok. discriminate.
Qed.

(** C10, amended. The callback never divides by zero or by a negative
    total: the division by [total_size] is made only under the guard
    [total_size > 0], and no [ZeroDivisionError] arises.  It is not
    total: it raises [OverflowError], and reports nothing, exactly when
    the quotient of one of its integer divisions is too large for a
    double: [downloaded / 1024], [total_size / 1024] or, for a positive
    total only, [downloaded * 100 / total_size].  In every other case it
    returns with one report, which is 0% for every non-positive total
    (the [-1] of a missing content length too); for such a total it does
    so whenever [downloaded] and [total_size] convert to doubles. *)
Theorem show_progress_guarded (block_num block_size total_size : Z) (s : state) :
  (overflows block_num block_size total_size = true ->
   show_progress block_num block_size total_size s
   = (Raise overflow_error, s)) /\
  (overflows block_num block_size total_size = false ->
   exists percent mb_done mb_total,
     show_progress block_num block_size total_size s
     = (Ok tt, say [Progress percent mb_done mb_total] s) /\
     (total_size <= 0 -> percent = 0%Q)) /\
  (forall e s',
     show_progress block_num block_size total_size s = (Raise e, s') ->
     e = overflow_error /\ Exn.is_ZeroDivisionError e = false /\
     overflows block_num block_size total_size = true /\ s' = s) /\
  (total_size <= 0 ->
   fits_double (block_num * block_size) -> fits_double total_size ->
   overflows block_num block_size total_size = false).
Proof.
  rewrite show_progress_run. split; [|split; [|split]].
  - intros ->. reflexivity.
  - intros ->. rewrite print_run. unfold progress_line.
    do 3 eexists. split; [reflexivity|].
    intros Hts. assert ((0 <? total_size) = false) as -> by lia. reflexivity.
  - intros e s'. destruct (overflows _ _ _); [|discriminate].
    intros H. inversion H; subst. repeat split.
  - intros Hts Hd Ht. unfold overflows.
    assert ((0 <? total_size) = false) as -> by lia.
    cbn [andb orb]. rewrite !too_large_fits by (assumption || lia).
    reflexivity.
Qed.

Lemma show_progress_guarded_witness :
  (exists percent mb_done mb_total,
     show_progress 2 bs (-1) Example.start
     = (Ok tt, say [Progress percent mb_done mb_total] Example.start) /\
     percent = 0%Q) /\
  show_progress (2 ^ 1020) 1 1 Example.start
  = (Raise overflow_error, Example.start).
Proof.
  split.
  - destruct (show_progress_guarded 2 bs (-1) Example.start)
      as (_ & Hret & _ & Hfit).
    destruct Hret as (p & d & t & Hrun & Hzero).
    + apply Hfit; [lia | vm_compute; reflexivity | vm_compute; reflexivity].
    + exists p, d, t. split; [exact Hrun | apply Hzero; lia].
  - destruct (show_progress_guarded (2 ^ 1020) 1 1 Example.start)
      as (Hraise & _).
    apply Hraise. vm_compute. reflexivity.
Defined.

(** A server can make the callback overflow: a content length of 332
    digits stops the download at the first report. *)
Lemma huge_content_length_fails :
  download_model Example.huge Example.start
  = (Ok false,
     say (announcement ++ recovery overflow_error Example.project)
       (State Example.project
          (<[Example.project ++ model_path := File []]> (fs Example.prepared))
          [])).
Proof. vm_compute. reflexivity. Qed.

(** ** State changes of the primitives *)

#[local] Instance quiet_preorder : PreOrder quiet.
Proof.
  split.
  - intros s. split; reflexivity.
  - intros s1 s2 s3 [Hc1 Ho1] [Hc2 Ho2]. split; congruence.
Qed.

#[local] Instance frame_preorder f : PreOrder (frame f).
Proof.
  split.
  - intros s. split; reflexivity.
  - intros s1 s2 s3 [Hc1 Hf1] [Hc2 Hf2]. split; [congruence|].
    intros p Hp. rewrite Hf2, Hf1; [reflexivity | exact Hp | congruence].
Qed.

Lemma frame_say f ls s : frame f s (say ls s).
Proof. split; reflexivity. Qed.

Lemma preserves_print_frame f l : preserves (frame f) (print l).
Proof. intros s r s' H. inversion H; subst. split; reflexivity. Qed.

Lemma preserves_lookup_node R `{!PreOrder R} p : preserves R (lookup_node p).
Proof. intros s r s' H. inversion H; subst. reflexivity. Qed.

Lemma os_mkdir_quiet E p : preserves quiet (os_mkdir E p).
Proof.
  intros s r s'. unfold os_mkdir.
  destruct (fs s !! (cwd s ++ p)); [intros H; inversion H; subst; reflexivity|].
  destruct (creatable E (cwd s ++ p) s);
    intros H; inversion H; subst; split; reflexivity.
Qed.

Lemma is_dir_quiet p : preserves quiet (is_dir p).
Proof.
  apply preserves_bind; [apply _ | apply preserves_lookup_node, _ |].
  intros n. apply preserves_ret, _.
Qed.

Lemma mkdir_except_OSError_quiet p exist_ok e :
  preserves quiet (mkdir_except_OSError p exist_ok e).
Proof.
  unfold mkdir_except_OSError.
  destruct (Exn.is_OSError e); [|apply preserves_raise, _].
  destruct exist_ok; [|apply preserves_raise, _].
  apply preserves_bind; [apply _ | apply is_dir_quiet |].
  intros [|]; [apply preserves_ret, _ | apply preserves_raise, _].
Qed.

Lemma mkdir_leaf_quiet E p exist_ok : preserves quiet (mkdir_leaf E p exist_ok).
Proof.
  apply preserves_catch; [apply _ | apply os_mkdir_quiet |].
  intros e. destruct (Exn.is_FileNotFoundError e).
  - apply preserves_raise, _.
  - apply mkdir_except_OSError_quiet.
Qed.

Lemma mkdir_parents_quiet E rp exist_ok :
  preserves quiet (mkdir_parents E rp exist_ok).
Proof.
  revert exist_ok. induction rp as [|c up IH]; intros exist_ok; cbn [mkdir_parents];
    (apply preserves_catch; [apply _ | apply os_mkdir_quiet |]);
    intros e; destruct (Exn.is_FileNotFoundError e);
    try apply mkdir_except_OSError_quiet.
  - apply preserves_raise, _.
  - apply preserves_bind; [apply _ | apply IH |].
    intros _. apply mkdir_leaf_quiet.
Qed.

(** [mkdir] prints nothing and stays in the working directory. *)
Lemma Path_mkdir_quiet E p parents exist_ok :
  preserves quiet (Path_mkdir E p parents exist_ok).
Proof.
  unfold Path_mkdir. destruct parents.
  - apply mkdir_parents_quiet.
  - apply mkdir_leaf_quiet.
Qed.

(** [mkdir(parents=True, exist_ok=True)] on a directory that exists
    succeeds and changes nothing. *)
Lemma Path_mkdir_exists E s :
  fs s !! (cwd s ++ MODEL_DIR) = Some Dir ->
  Path_mkdir E MODEL_DIR true true s = (Ok tt, s).
Proof.
  intros Hdir. unfold Path_mkdir, MODEL_DIR. cbn [rev app mkdir_parents].
  unfold catch, os_mkdir. fold MODEL_DIR. rewrite Hdir. cbn.
  unfold bind, is_dir, lookup_node, bind, ret. rewrite Hdir. reflexivity.
Qed.

Lemma stat_size_state E p s r s' : stat_size E p s = (r, s') -> s' = s.
Proof.
  unfold stat_size. destruct (stat_fault E).
  - intros H. inversion H. reflexivity.
  - unfold bind, lookup_node. destruct (fs s !! (cwd s ++ p)) as [[|d]|];
      intros H; inversion H; reflexivity.
Qed.

Lemma open_wb_frame E f : preserves (frame f) (open_wb E f).
Proof.
  intros s r s'. unfold open_wb.
  assert (forall n, frame f s (State (cwd s) (<[cwd s ++ f := n]> (fs s)) (out s)))
    as Hins.
  { intros n. split; [reflexivity|]. intros p Hp. cbn.
    apply lookup_insert_ne. congruence. }
  destruct (fs s !! (cwd s ++ f)) as [[|d]|].
  - intros H. inversion H; subst. reflexivity.
  - destruct (decide _); intros H; inversion H; subst; [reflexivity | apply Hins].
  - destruct (creatable E (cwd s ++ f) s); intros H; inversion H; subst;
      [apply Hins | reflexivity].
Qed.

Lemma write_frame E k f block : preserves (frame f) (write E k f block).
Proof.
  intros s r s'. unfold write. destruct (decide _).
  - intros H. inversion H; subst. reflexivity.
  - intros H. inversion H; subst. split; [reflexivity|]. intros p Hp. cbn.
    apply lookup_alter_ne. congruence.
Qed.

Lemma show_progress_frame f bn bsz ts : preserves (frame f) (show_progress bn bsz ts).
Proof.
  intros s r s'. rewrite show_progress_run. destruct (overflows _ _ _).
  - intros H. inversion H; subst. reflexivity.
  - apply preserves_print_frame.
Qed.

Lemma retrieve_loop_frame E f size reads read k :
  preserves (frame f) (retrieve_loop E f show_progress size reads read k).
Proof.
  revert read k. induction reads as [|[[|b0 bt]|e] rest IH]; intros read k;
    cbn [retrieve_loop].
  - apply preserves_ret, _.
  - apply preserves_ret, _.
  - apply preserves_bind; [apply _ | apply write_frame |]. intros _.
    apply preserves_bind; [apply _ | apply show_progress_frame |]. intros _.
    apply IH.
  - apply preserves_raise, _.
Qed.

(** The transfer changes no entry of the filesystem but its destination. *)
Lemma urlretrieve_frame E url f :
  preserves (frame f) (urlretrieve E url f show_progress).
Proof.
  unfold urlretrieve. destruct (net E url) as [e|h reads].
  - apply preserves_raise, _.
  - apply preserves_bind; [apply _ | apply open_wb_frame |]. intros _.
    apply preserves_bind; [apply _ | |].
    { destruct h; [apply preserves_ret | apply preserves_ret | apply preserves_raise];
        apply _. }
    intros size.
    apply preserves_bind; [apply _ | apply show_progress_frame |]. intros _.
    apply preserves_bind; [apply _ | apply retrieve_loop_frame |]. intros read.
    destruct (_ && _); [apply preserves_raise | apply preserves_ret]; apply _.
Qed.

(** ** The transfer *)

Lemma retrieve_loop_ok E f size reads :
  forall read k s r s' d,
    retrieve_loop E f show_progress size reads read k s = (Ok r, s') ->
    fs s !! (cwd s ++ f) = Some (File d) ->
    cwd s' = cwd s /\
    fs s' !! (cwd s ++ f) = Some (File (d ++ body reads)) /\
    r = read + Z.of_nat (length (body reads)) /\
    out s' = out s ++ map (fun j => progress_line (Z.of_nat j) bs size)
                          (seq (S k) (nblocks reads)).
Proof.
  induction reads as [|[[|b0 bt]|e] rest IH]; intros read k s r s' d;
    cbn [retrieve_loop body nblocks].
  - intros H Hd. inversion H; subst. cbn. rewrite !app_nil_r.
    repeat split; [exact Hd | lia].
  - intros H Hd. inversion H; subst. cbn. rewrite !app_nil_r.
    repeat split; [exact Hd | lia].
  - intros H Hd.
    apply bind_inv in H as [([] & s1 & Hw & H)|(e & _ & ?)]; [|discriminate].
    apply bind_inv in H as [([] & s2 & Hp & H)|(e & _ & ?)]; [|discriminate].
    unfold write in Hw. destruct (decide _); [discriminate|].
    inversion Hw; subst s1; clear Hw.
    rewrite show_progress_run in Hp. destruct (overflows _ _ _); [discriminate|].
    rewrite print_run in Hp. inversion Hp; subst s2; clear Hp.
    eapply IH in H.
    2:{ cbn. rewrite lookup_alter_eq, Hd. reflexivity. }
    destruct H as (Hc & Hf & Hr & Ho). cbn in Hc, Hf, Ho.
    repeat split.
    + exact Hc.
    + rewrite Hf, <- app_assoc. reflexivity.
    + rewrite Hr, length_app. cbn [length]. lia.
    + rewrite Ho, <- app_assoc. reflexivity.
  - discriminate.
Qed.

Lemma body_within reads :
  blocks_within reads ->
  Z.of_nat (length (body reads)) <= Z.of_nat (nblocks reads) * bs.
Proof.
  unfold blocks_within. induction 1 as [|[[|b0 bt]|e] rest Hb _ IH];
    cbn [body nblocks]; try (cbn; lia).
  rewrite length_app. lia.
Qed.

(** A transfer that returns: the server answered, the destination holds
    the bytes it sent and nothing else, every block was reported, and no
    fewer bytes than the announced size arrived. *)
Lemma urlretrieve_ok E url f s r s' :
  urlretrieve E url f show_progress s = (Ok r, s') ->
  exists h reads,
    net E url = Response h reads /\
    cwd s' = cwd s /\
    fs s' !! (cwd s ++ f) = Some (File (body reads)) /\
    out s' = out s ++ reports (header_size h) (nblocks reads) /\
    header_size h <= Z.of_nat (length (body reads)) /\
    h <> Malformed.
Proof.
  unfold urlretrieve. destruct (net E url) as [e|h reads]; [discriminate|].
  intros H. exists h, reads. split; [reflexivity|].
  apply bind_inv in H as [([] & s1 & Hopen & H)|(e & _ & ?)]; [|discriminate].
  apply bind_inv in H as [(size & s1' & Hsize & H)|(e & _ & ?)]; [|discriminate].
  assert (s1' = s1 /\ size = header_size h /\ h <> Malformed) as (-> & -> & Hh).
  { destruct h; inversion Hsize; subst; repeat split; discriminate. }
  clear Hsize.
  apply bind_inv in H as [([] & s2 & Hp & H)|(e & _ & ?)]; [|discriminate].
  apply bind_inv in H as [(read & s3 & Hloop & H)|(e & _ & ?)]; [|discriminate].
  assert (cwd s1 = cwd s /\ fs s1 !! (cwd s ++ f) = Some (File []) /\ out s1 = out s)
    as (Hc1 & Hf1 & Ho1).
  { unfold open_wb in Hopen.
    destruct (fs s !! (cwd s ++ f)) as [[|d]|]; [discriminate| |].
    - destruct (decide _); [discriminate|]. inversion Hopen; subst. cbn.
      rewrite lookup_insert_eq. repeat split.
    - destruct (creatable E (cwd s ++ f) s); [|discriminate].
      inversion Hopen; subst. cbn. rewrite lookup_insert_eq. repeat split. }
  rewrite show_progress_run in Hp. destruct (overflows _ _ _); [discriminate|].
  rewrite print_run in Hp. inversion Hp; subst s2; clear Hp.
  eapply retrieve_loop_ok in Hloop.
  2:{ cbn. rewrite Hc1. exact Hf1. }
  destruct Hloop as (Hc & Hf & Hr & Ho). cbn in Hc, Hf, Ho.
  rewrite Hc1 in Hf. cbn [app] in Hf.
  destruct ((0 <=? header_size h) && (read <? header_size h)) eqn:Hshort;
    [discriminate|].
  inversion H; subst s3; clear H.
  repeat split.
  - congruence.
  - exact Hf.
  - rewrite Ho, Ho1, <- app_assoc. reflexivity.
  - apply andb_false_iff in Hshort as [Hneg|Hge]; lia.
  - exact Hh.
Qed.

(** ** [download_model], step by step *)

Lemma except_clause_run e s :
  (print (Failed e) >>
   print PleaseManual >>
   print (ManualUrl MODEL_URL) >>
   let* a := absolute model_path in
   print (SaveTo a) >>
   ret false) s
  = (Ok false, say (recovery e (cwd s)) s).
Proof.
  unfold bind, print, absolute, ret, say, recovery. cbn.
  rewrite <- !app_assoc. reflexivity.
Qed.

Lemma success_tail_run kb s :
  (print (FileSize (kb / 1024)) >>
   let* a := absolute model_path in
   print (Location a) >>
   ret true) (say [Success MODEL_FILE] s)
  = (Ok true,
     say [Success MODEL_FILE; FileSize (kb / 1024);
          Location (cwd s ++ model_path)] s).
Proof.
  unfold bind, print, absolute, ret, say. cbn.
  rewrite <- !app_assoc. reflexivity.
Qed.

Lemma download_model_run E s :
  download_model E s =
  match Path_mkdir E MODEL_DIR true true s with
  | (Raise e, s1) => (Raise e, s1)
  | (Ok _, s1) =>
      match urlretrieve E MODEL_URL model_path show_progress
              (say announcement s1) with
      | (Raise e, s2) => failed e s2
      | (Ok _, s2) =>
          match stat_size E model_path (say [Newline] s2) with
          | (Raise e, s3) => failed e s3
          | (Ok file_size, s3) =>
              match truediv file_size 1024 with
              | Raise e => failed e (say [Success MODEL_FILE] s3)
              | Ok kb =>
                  (Ok true,
                   say [Success MODEL_FILE; FileSize (kb / 1024);
                        Location (cwd s3 ++ model_path)] s3)
              end
          end
      end
  end.
Proof.
  unfold download_model, bind at 1.
  destruct (Path_mkdir E MODEL_DIR true true s) as [[[]|e] s1]; [|reflexivity].
  unfold bind at 1. rewrite print_run.
  unfold bind at 1. rewrite print_run, say_say.
  unfold bind at 1. rewrite print_run, say_say.
  change ([Downloading] ++ [Url MODEL_URL] ++ [Destination model_path])
    with announcement.
  change (([Downloading] ++ [Url MODEL_URL]) ++ [Destination model_path])
    with announcement.
  unfold try_except, catch. unfold bind at 1.
  destruct (urlretrieve E MODEL_URL model_path show_progress (say announcement s1))
    as [[[]|e] s2].
  2:{ unfold failed. destruct (Exn.is_Exception e);
      [apply except_clause_run | reflexivity]. }
  unfold bind at 1. rewrite print_run. unfold bind at 1.
  destruct (stat_size E model_path (say [Newline] s2)) as [[n|e] s3].
  2:{ unfold failed. destruct (Exn.is_Exception e);
      [apply except_clause_run | reflexivity]. }
  unfold bind at 1. rewrite print_run. unfold bind at 1, lift.
  destruct (truediv n 1024) as [kb|e].
  2:{ unfold failed. destruct (Exn.is_Exception e);
      [apply except_clause_run | reflexivity]. }
  apply success_tail_run.
Qed.

Lemma urlretrieve_cwd E url f s r s' :
  urlretrieve E url f show_progress s = (r, s') -> cwd s' = cwd s.
Proof. intros H. apply urlretrieve_frame in H. apply H. Qed.

(** An error of the transfer enters the [except] clause. *)
Lemma download_model_transfer_raises E s s1 e s2 :
  Path_mkdir E MODEL_DIR true true s = (Ok tt, s1) ->
  urlretrieve E MODEL_URL model_path show_progress (say announcement s1)
  = (Raise e, s2) ->
  Exn.is_Exception e = true ->
  download_model E s = (Ok false, say (recovery e (cwd s)) s2).
Proof.
  intros Hmk Hurl He. rewrite download_model_run, Hmk, Hurl.
  unfold failed. rewrite He.
  apply urlretrieve_cwd in Hurl. apply Path_mkdir_quiet in Hmk as [Hc _].
  cbn in Hurl. rewrite Hurl, Hc. reflexivity.
Qed.

(** ** Error handling *)

(** C1, as stated, fails for directory creation: in a write-protected
    project directory [mkdir] raises [PermissionError], and the exception
    leaves [download_model] with nothing printed at all. *)
Lemma mkdir_error_propagates_counterexample :
  download_model Example.readonly Example.start
  = (Raise (os_error Exn.PermissionError "Permission denied"), Example.start) /\
  main Example.readonly Example.boot
  = (Traceback (os_error Exn.PermissionError "Permission denied"), Example.start).
Proof. split; vm_compute; reflexivity. Qed.

(** C1, amended. When directory creation succeeds, any error of class
    [Exception] raised during the transfer is caught as one generic
    failure: the fetcher prints the error message, then the URL and the
    absolute destination path as manual-recovery instructions, and
    returns failure.  An error raised during directory creation is not
    caught: it leaves [download_model] before anything is printed. *)
Theorem transfer_errors_caught (E : env) (s : state) :
  (forall s1 e s2,
     Path_mkdir E MODEL_DIR true true s = (Ok tt, s1) ->
     urlretrieve E MODEL_URL model_path show_progress (say announcement s1)
     = (Raise e, s2) ->
     Exn.is_Exception e = true ->
     download_model E s
     = (Ok false,
        say [Failed e; PleaseManual; ManualUrl MODEL_URL;
             SaveTo (cwd s ++ model_path)] s2)) /\
  (forall e s1,
     Path_mkdir E MODEL_DIR true true s = (Raise e, s1) ->
     download_model E s = (Raise e, s1) /\ out s1 = out s).
Proof.
  split.
  - intros s1 e s2 Hmk Hurl He.
    apply (download_model_transfer_raises E s s1 e s2 Hmk Hurl He).
  - intros e s1 Hmk. rewrite download_model_run, Hmk. split; [reflexivity|].
    apply Path_mkdir_quiet in Hmk. apply Hmk.
Qed.

Lemma transfer_errors_caught_witness :
  download_model Example.offline Example.start
  = (Ok false,
     say [Failed Example.dns_error; PleaseManual; ManualUrl MODEL_URL;
          SaveTo (Example.project ++ model_path)]
       (say announcement
          (State Example.project (fs Example.prepared) []))) /\
  download_model Example.readonly Example.start
  = (Raise (os_error Exn.PermissionError "Permission denied"), Example.start).
Proof.
  split.
  - destruct (transfer_errors_caught Example.offline Example.start)
      as [Hcaught _].
    apply (Hcaught (State Example.project (fs Example.prepared) [])).
    + vm_compute. reflexivity.
    + reflexivity.
    + reflexivity.
  - destruct (transfer_errors_caught Example.readonly Example.start)
      as [_ Hmkdir].
    apply Hmkdir. vm_compute. reflexivity.
Defined.

(** C2. The exit status is 0 when [download_model] returns true and 1
    when it returns false, and the script itself exits with no other
    status: every exit of [main] is one of these two. *)
Theorem main_exit_status (E : env) (s : state) :
  (forall s0 success s',
     os_chdir (parent (parent (script_file E))) s = (Ok tt, s0) ->
     download_model E s0 = (Ok success, s') ->
     main E s = (Exit (if success then 0 else 1), s')) /\
  (forall code s',
     main E s = (Exit code, s') ->
     (code = 0 \/ code = 1) /\
     exists s0 success,
       download_model E s0 = (Ok success, s') /\
       code = (if success then 0 else 1)).
Proof.
  unfold main, bind. split.
  - intros s0 success s' Hcd Hdl. rewrite Hcd, Hdl. reflexivity.
  - intros code s'.
    destruct (os_chdir (parent (parent (script_file E))) s) as [[[]|e] s0];
      [|discriminate].
    destruct (download_model E s0) as [[success|e] s1] eqn:Hdl; [|discriminate].
    intros H. inversion H; subst. split.
    + destruct success; [left | right]; reflexivity.
    + exists s0, success. split; [exact Hdl | reflexivity].
Qed.

Lemma main_exit_status_witness :
  main Example.online Example.boot
  = (Exit 0, snd (download_model Example.online Example.start)) /\
  main Example.offline Example.boot
  = (Exit 1, snd (download_model Example.offline Example.start)).
Proof.
  split.
  - destruct (main_exit_status Example.online Example.boot) as [Hret _].
    apply (Hret Example.start true); vm_compute; reflexivity.
  - destruct (main_exit_status Example.offline Example.boot) as [Hret _].
    apply (Hret Example.start false); vm_compute; reflexivity.
Defined.

(** C6. When the URL is unreachable, so that the transfer raises (a
    failed DNS resolution, for one), the operation returns failure, the
    manual-recovery URL and the absolute destination path are the last
    lines printed, and the process exits with status 1. *)
Theorem unreachable_url_fails (E : env) (s s0 s1 s2 : state) (e : exn) :
  os_chdir (parent (parent (script_file E))) s = (Ok tt, s0) ->
  Path_mkdir E MODEL_DIR true true s0 = (Ok tt, s1) ->
  urlretrieve E MODEL_URL model_path show_progress (say announcement s1)
  = (Raise e, s2) ->
  Exn.is_Exception e = true ->
  let script_dir := parent (parent (script_file E)) in
  let final :=
    say [Failed e; PleaseManual; ManualUrl MODEL_URL;
         SaveTo (script_dir ++ model_path)] s2 in
  download_model E s0 = (Ok false, final) /\
  main E s = (Exit 1, final) /\
  (forall e', net E MODEL_URL = Unreachable e' ->
     e = e' /\ fs s2 = fs s1 /\ out s2 = out s ++ announcement).
Proof.
  intros Hcd Hmk Hurl He script_dir final.
  assert (cwd s0 = script_dir /\ out s0 = out s) as [Hc0 Ho0].
  { unfold os_chdir in Hcd. fold script_dir in Hcd.
    destruct (fs s !! script_dir) as [[|d]|]; inversion Hcd; subst.
    split; reflexivity. }
  assert (download_model E s0 = (Ok false, final)) as Hdl.
  { rewrite (download_model_transfer_raises E s0 s1 e s2 Hmk Hurl He).
    unfold final, recovery. rewrite Hc0. reflexivity. }
  split; [exact Hdl|]. split.
  - unfold main, bind. rewrite Hcd, Hdl. reflexivity.
  - intros e' Hnet. unfold urlretrieve in Hurl. rewrite Hnet in Hurl.
    inversion Hurl; subst. apply Path_mkdir_quiet in Hmk as [_ Ho1].
    repeat split. cbn. congruence.
Qed.

Lemma unreachable_url_fails_witness :
  main Example.offline Example.boot
  = (Exit 1,
     State Example.project (fs Example.prepared)
       (announcement ++
        [Failed Example.dns_error; PleaseManual; ManualUrl MODEL_URL;
         SaveTo (Example.project ++ model_path)])).
Proof.
  apply (unreachable_url_fails Example.offline Example.boot Example.start
           (State Example.project (fs Example.prepared) [])
           (say announcement (State Example.project (fs Example.prepared) []))
           Example.dns_error).
  - vm_compute. reflexivity.
  - vm_compute. reflexivity.
  - reflexivity.
  - reflexivity.
Defined.

(** ** Successful runs *)

(** Everything a run that returns true has done. *)
Lemma download_model_success E s s' :
  download_model E s = (Ok true, s') ->
  exists s1 h reads,
    Path_mkdir E MODEL_DIR true true s = (Ok tt, s1) /\
    net E MODEL_URL = Response h reads /\
    stat_fault E = None /\
    cwd s' = cwd s /\
    fs s' !! (cwd s ++ model_path) = Some (File (body reads)) /\
    (forall p, p <> cwd s ++ model_path -> fs s' !! p = fs s1 !! p) /\
    header_size h <= Z.of_nat (length (body reads)) /\
    out s' = out s ++ announcement
                   ++ reports (header_size h) (nblocks reads)
                   ++ success_report (Z.of_nat (length (body reads))) (cwd s).
Proof.
  rewrite download_model_run.
  destruct (Path_mkdir E MODEL_DIR true true s) as [[[]|e] s1] eqn:Hmk;
    [|discriminate].
  destruct (urlretrieve _ _ _ _ _) as [[[]|e] s2] eqn:Hurl.
  2:{ unfold failed. destruct (Exn.is_Exception e); discriminate. }
  destruct (stat_size _ _ _) as [[n|e] s3] eqn:Hstat.
  2:{ unfold failed. destruct (Exn.is_Exception e); discriminate. }
  destruct (truediv n 1024) as [kb|e] eqn:Hdiv.
  2:{ unfold failed. destruct (Exn.is_Exception e); discriminate. }
  intros H. inversion H; subst s'; clear H.
  pose proof (stat_size_state _ _ _ _ _ Hstat) as ->.
  pose proof (urlretrieve_frame _ _ _ _ _ _ Hurl) as [_ Hframe].
  apply urlretrieve_ok in Hurl as (h & reads & Hnet & Hc & Hf & Ho & Hsz & _).
  apply Path_mkdir_quiet in Hmk as Hq. destruct Hq as [Hc1 Ho1].
  cbn in Hc, Hf, Ho, Hframe. rewrite Hc1 in *.
  assert (stat_fault E = None /\ n = Z.of_nat (length (body reads))) as [Hsf ->].
  { unfold stat_size in Hstat. destruct (stat_fault E); [discriminate|].
    unfold bind, lookup_node in Hstat. cbn in Hstat.
    rewrite Hc, Hf in Hstat. inversion Hstat. split; reflexivity. }
  assert (kb = inject_Z (Z.of_nat (length (body reads))) / inject_Z 1024)%Q as ->.
  { unfold truediv in Hdiv. change (1024 =? 0) with false in Hdiv.
    cbv iota in Hdiv. destruct (too_large _ _); inversion Hdiv. reflexivity. }
  exists s1, h, reads. cbn. repeat split; try assumption.
  rewrite Ho, Ho1, Hc. unfold success_report.
  rewrite <- !app_assoc. reflexivity.
Qed.

Lemma percents_app l1 l2 : percents (l1 ++ l2) = percents l1 ++ percents l2.
Proof.
  induction l1 as [|[] l1 IH]; cbn; rewrite ?IH; reflexivity.
Qed.

Lemma percents_reports size n :
  percents (reports size n) = map (percent_at size) (seq 0 (S n)).
Proof.
  unfold reports. generalize (seq 0 (S n)) as js.
  induction js as [|j js IH]; [reflexivity|].
  cbn [map]. unfold progress_line at 1. cbn [percents]. rewrite IH.
  reflexivity.
Qed.

Lemma pymin_mono x y c : (x <= y)%Q -> (pymin x c <= pymin y c)%Q.
Proof.
  intros Hxy. rewrite !pymin_Qmin. apply Q.min_le_compat_l. exact Hxy.
Qed.

Lemma percent_at_mono size i j :
  0 < size -> (i <= j)%nat -> (percent_at size i <= percent_at size j)%Q.
Proof.
  intros Hsize Hij. unfold percent_at.
  assert ((0 <? size) = true) as -> by lia.
  apply pymin_mono. unfold Qdiv. apply Qmult_le_compat_r.
  - rewrite <- Zle_Qle. unfold bs. nia.
  - apply Qinv_le_0_compat. change 0%Q with (inject_Z 0).
    rewrite <- Zle_Qle. lia.
Qed.

Lemma percent_at_full size j :
  0 < size -> size <= Z.of_nat j * bs -> (percent_at size j == 100)%Q.
Proof.
  intros Hsize Hfull. unfold percent_at.
  assert ((0 <? size) = true) as -> by lia.
  assert (100 <= inject_Z (Z.of_nat j * bs * 100) / inject_Z size)%Q as Hq.
  { apply Qle_shift_div_l.
    - change 0%Q with (inject_Z 0). rewrite <- Zlt_Qlt. exact Hsize.
    - change 100%Q with (inject_Z 100).
      rewrite <- inject_Z_mult, <- Zle_Qle. lia. }
  unfold pymin. destruct (Qle_bool _ 100) eqn:Hle; [|reflexivity].
  apply Qle_bool_iff in Hle. apply Qle_antisym; assumption.
Qed.

Lemma percent_at_sorted size a n :
  0 < size -> StronglySorted Qle (map (percent_at size) (seq a n)).
Proof.
  intros Hsize. revert a. induction n as [|n IH]; intros a; cbn [seq map].
  - constructor.
  - constructor; [apply IH|].
    apply List.Forall_forall. intros q Hq.
    apply in_map_iff in Hq as (j & <- & Hj). apply in_seq in Hj.
    apply percent_at_mono; [exact Hsize | lia].
Qed.

(** C4. In a successful transfer of known positive total size the
    percentages reported are non-decreasing, and the last report, made
    when the blocks counted cover the total, is 100%. *)
Theorem progress_monotone (E : env) (s s' : state) (size : Z)
    (reads : list read_result) :
  download_model E s = (Ok true, s') ->
  net E MODEL_URL = Response (Numeric size) reads ->
  0 < size ->
  exists new front final,
    out s' = out s ++ new /\
    StronglySorted Qle (percents new) /\
    percents new = front ++ [final] /\
    (blocks_within reads -> (final == 100)%Q).
Proof.
  intros Hrun Hnet Hsize.
  apply download_model_success in Hrun
    as (s1 & h & reads' & _ & Hnet' & _ & _ & _ & _ & Hsz & Ho).
  rewrite Hnet in Hnet'. inversion Hnet'; subst h reads'.
  cbn [header_size] in Hsz, Ho.
  exists (announcement ++ reports size (nblocks reads)
          ++ success_report (Z.of_nat (length (body reads))) (cwd s)),
    (map (percent_at size) (seq 0 (nblocks reads))),
    (percent_at size (nblocks reads)).
  split; [exact Ho|].
  assert (percents (announcement ++ reports size (nblocks reads)
                    ++ success_report (Z.of_nat (length (body reads))) (cwd s))
          = map (percent_at size) (seq 0 (S (nblocks reads)))) as ->.
  { rewrite !percents_app, percents_reports. cbn [percents announcement
      success_report app]. rewrite app_nil_r. reflexivity. }
  split; [apply percent_at_sorted; exact Hsize|]. split.
  - rewrite seq_S, map_app. reflexivity.
  - intros Hbw. apply percent_at_full; [exact Hsize|].
    apply body_within in Hbw. lia.
Qed.

Lemma progress_monotone_witness :
  exists new front final,
    out (snd (download_model Example.online Example.start)) = [] ++ new /\
    StronglySorted Qle (percents new) /\
    percents new = front ++ [final] /\
    (final == 100)%Q.
Proof.
  destruct (progress_monotone Example.online Example.start
              (snd (download_model Example.online Example.start)) 5
              [Data (Example.payload 3); Data (Example.payload 2)])
    as (new & front & final & Ho & Hs & Hl & Hfinal).
  - vm_compute. reflexivity.
  - reflexivity.
  - lia.
  - exists new, front, final. repeat split; try assumption.
    apply Hfinal. repeat constructor; vm_compute; discriminate.
Defined.

(** C5. After a successful transfer the size in the success message is
    the length of the destination file as [stat] reads it back from the
    filesystem after the transfer, divided by 1024 twice (the value that
    [:.2f] renders), and the line after it is the absolute destination
    path. *)
Theorem size_report (E : env) (s s' : state) :
  download_model E s = (Ok true, s') ->
  exists data front mb,
    fs s' !! (cwd s' ++ model_path) = Some (File data) /\
    stat_size E model_path s' = (Ok (Z.of_nat (length data)), s') /\
    out s' = front ++ [Success MODEL_FILE; FileSize mb;
                       Location (cwd s' ++ model_path)] /\
    (mb == inject_Z (Z.of_nat (length data)) / 1024 / 1024)%Q.
Proof.
  intros Hrun.
  apply download_model_success in Hrun
    as (s1 & h & reads & _ & _ & Hsf & Hc & Hf & _ & _ & Ho).
  rewrite Hc.
  exists (body reads),
    (out s ++ announcement ++ reports (header_size h) (nblocks reads) ++ [Newline]),
    (inject_Z (Z.of_nat (length (body reads))) / inject_Z 1024 / 1024)%Q.
  split; [exact Hf|]. split; [|split].
  - unfold stat_size. rewrite Hsf. unfold bind, lookup_node.
    rewrite Hc, Hf. reflexivity.
  - rewrite Ho. unfold success_report. rewrite <- !app_assoc. reflexivity.
  - reflexivity.
Qed.

Lemma size_report_witness :
  exists front mb,
    out (snd (download_model Example.online Example.start))
    = front ++ [Success MODEL_FILE; FileSize mb;
                Location (Example.project ++ model_path)] /\
    (mb == 5 / 1024 / 1024)%Q.
Proof.
  destruct (size_report Example.online Example.start
              (snd (download_model Example.online Example.start)))
    as (data & front & mb & Hf & _ & Ho & Hmb).
  - vm_compute. reflexivity.
  - exists front, mb. split; [exact Ho|].
    assert (data = Example.payload 5) as ->.
    { vm_compute in Hf. inversion Hf. reflexivity. }
    exact Hmb.
Defined.

(** C7. When the destination directory exists already, directory
    creation succeeds and changes nothing, and the run, however it ends,
    leaves every entry of the filesystem other than the destination file
    as it was. *)
Theorem existing_directory_untouched (E : env) (s : state) :
  fs s !! (cwd s ++ MODEL_DIR) = Some Dir ->
  Path_mkdir E MODEL_DIR true true s = (Ok tt, s) /\
  forall r s',
    download_model E s = (r, s') ->
    forall p, p <> cwd s ++ model_path -> fs s' !! p = fs s !! p.
Proof.
  intros Hdir. pose proof (Path_mkdir_exists E s Hdir) as Hmk.
  split; [exact Hmk|].
  intros r s'. rewrite download_model_run, Hmk.
  assert (forall e s2 r s', frame model_path s s2 -> failed e s2 = (r, s') ->
            frame model_path s s') as Hfailed.
  { intros e s2 r0 s0 Hfr. unfold failed.
    destruct (Exn.is_Exception e); intros H; inversion H; subst;
      [|exact Hfr].
    transitivity s2; [exact Hfr | apply frame_say]. }
  destruct (urlretrieve _ _ _ _ _) as [[[]|e] s2] eqn:Hurl;
    apply urlretrieve_frame in Hurl;
    assert (frame model_path s s2) as Hfr
      by (transitivity (say announcement s); [apply frame_say | exact Hurl]).
  2:{ intros H. eapply Hfailed in H; [apply H | exact Hfr]. }
  destruct (stat_size _ _ _) as [[n|e] s3] eqn:Hstat;
    apply stat_size_state in Hstat; subst s3;
    assert (frame model_path s (say [Newline] s2)) as Hfr'
      by (transitivity s2; [exact Hfr | apply frame_say]).
  2:{ intros H. eapply Hfailed in H; [apply H | exact Hfr']. }
  destruct (truediv n 1024) as [kb|e].
  - intros H. inversion H; subst. cbn. apply Hfr.
  - intros H. eapply Hfailed in H; [apply H|].
    transitivity (say [Newline] s2); [exact Hfr' | apply frame_say].
Qed.

Lemma existing_directory_untouched_witness :
  Path_mkdir Example.online MODEL_DIR true true Example.prepared
  = (Ok tt, Example.prepared) /\
  fs (snd (download_model Example.online Example.prepared))
    !! (Example.project ++ ["assets"; "models"; "README.md"]%string)
  = fs Example.prepared
    !! (Example.project ++ ["assets"; "models"; "README.md"]%string).
Proof.
  destruct (existing_directory_untouched Example.online Example.prepared)
    as [Hmk Hframe].
  - vm_compute. reflexivity.
  - split; [exact Hmk|].
    apply (Hframe (fst (download_model Example.online Example.prepared))).
    + apply surjective_pairing.
    + vm_compute. discriminate.
Defined.

(** C8. After two successful fetches in a row the destination file
    holds exactly the bytes of the second transfer: the file the first
    fetch left is truncated and written anew, and nothing asks for a
    confirmation on the way. *)
Theorem second_fetch_overwrites (E1 E2 : env) (s s1 s2 : state) :
  download_model E1 s = (Ok true, s1) ->
  download_model E2 s1 = (Ok true, s2) ->
  exists h1 reads1 h2 reads2,
    net E1 MODEL_URL = Response h1 reads1 /\
    net E2 MODEL_URL = Response h2 reads2 /\
    fs s1 !! (cwd s ++ model_path) = Some (File (body reads1)) /\
    fs s2 !! (cwd s ++ model_path) = Some (File (body reads2)).
Proof.
  intros Hrun1 Hrun2.
  apply download_model_success in Hrun1
    as (_ & h1 & reads1 & _ & Hnet1 & _ & Hc1 & Hf1 & _).
  apply download_model_success in Hrun2
    as (_ & h2 & reads2 & _ & Hnet2 & _ & _ & Hf2 & _).
  rewrite Hc1 in Hf2. exists h1, reads1, h2, reads2. repeat split; assumption.
Qed.

Lemma second_fetch_overwrites_witness :
  fs (snd (download_model Example.online2
             (snd (download_model Example.online Example.start))))
    !! (Example.project ++ model_path)
  = Some (File (Example.payload 7)).
Proof.
  destruct (second_fetch_overwrites Example.online Example.online2
              Example.start
              (snd (download_model Example.online Example.start))
              (snd (download_model Example.online2
                      (snd (download_model Example.online Example.start)))))
    as (h1 & reads1 & h2 & reads2 & _ & Hnet2 & _ & Hf2).
  - vm_compute. reflexivity.
  - vm_compute. reflexivity.
  - inversion Hnet2; subst. exact Hf2.
Defined.

(** C9. Whenever [download_model] returns true the [stat] after the
    transfer succeeded: a file is at the destination and the size
    reported is the size [stat] gives for it.  When that [stat] raises an
    error, the function prints no success message and returns false. *)
Theorem success_requires_stat (E : env) (s : state) :
  (forall s',
     download_model E s = (Ok true, s') ->
     exists data n,
       fs s' !! (cwd s' ++ model_path) = Some (File data) /\
       stat_size E model_path s' = (Ok n, s') /\
       n = Z.of_nat (length data) /\
       In (FileSize (inject_Z n / inject_Z 1024 / 1024)) (out s')) /\
  (forall s1 s2 e s3,
     Path_mkdir E MODEL_DIR true true s = (Ok tt, s1) ->
     urlretrieve E MODEL_URL model_path show_progress (say announcement s1)
     = (Ok tt, s2) ->
     stat_size E model_path (say [Newline] s2) = (Raise e, s3) ->
     Exn.is_Exception e = true ->
     download_model E s
     = (Ok false, say (Newline :: recovery e (cwd s)) s2)).
Proof.
  split.
  - intros s' Hrun.
    apply download_model_success in Hrun
      as (s1 & h & reads & _ & _ & Hsf & Hc & Hf & _ & _ & Ho).
    exists (body reads), (Z.of_nat (length (body reads))).
    rewrite Hc. repeat split.
    + exact Hf.
    + unfold stat_size. rewrite Hsf. unfold bind, lookup_node.
      rewrite Hc, Hf. reflexivity.
    + rewrite Ho. unfold success_report. rewrite !in_app_iff.
      right. right. cbn. auto.
  - intros s1 s2 e s3 Hmk Hurl Hstat He.
    rewrite download_model_run, Hmk, Hurl, Hstat.
    apply stat_size_state in Hstat. subst s3.
    unfold failed. rewrite He, say_say.
    apply urlretrieve_cwd in Hurl. apply Path_mkdir_quiet in Hmk as [Hc _].
    cbn in Hurl |- *. rewrite Hurl, Hc. reflexivity.
Qed.

Lemma success_requires_stat_witness :
  download_model Example.unreadable Example.start
  = (Ok false,
     say (Newline :: recovery Example.stat_error Example.project)
       (snd (urlretrieve Example.unreadable MODEL_URL model_path show_progress
               (say announcement (State Example.project (fs Example.prepared) []))))) /\
  exists data n,
    fs (snd (download_model Example.online Example.start))
      !! (Example.project ++ model_path) = Some (File data) /\
    n = Z.of_nat (length data) /\
    In (FileSize (inject_Z n / inject_Z 1024 / 1024))
       (out (snd (download_model Example.online Example.start))).
Proof.
  split.
  - destruct (success_requires_stat Example.unreadable Example.start)
      as [_ Hraise].
    apply (Hraise (State Example.project (fs Example.prepared) []) _
             Example.stat_error
             (say [Newline]
                (snd (urlretrieve Example.unreadable MODEL_URL model_path
                        show_progress
                        (say announcement
                           (State Example.project (fs Example.prepared) [])))))).
    + vm_compute. reflexivity.
    + vm_compute. reflexivity.
    + vm_compute. reflexivity.
    + reflexivity.
  - destruct (success_requires_stat Example.online Example.start)
      as [Htrue _].
    destruct (Htrue (snd (download_model Example.online Example.start)))
      as (data & n & Hf & _ & Hn & Hin).
    + vm_compute. reflexivity.
    + exists data, n. repeat split; assumption.
Defined.

(** * Further properties of the script *)

(** ** What the [except] clause does not catch *)

(** X1. An exception that is not an [Exception], such as the
    [KeyboardInterrupt] of Ctrl-C during the transfer, passes the
    [except] clause: [download_model] raises it, the recovery
    instructions are not printed, and the process ends in a traceback
    instead of [sys.exit]. *)
Theorem interrupt_not_caught (E : env) (s s0 s1 s2 : state) (e : exn) :
  os_chdir (parent (parent (script_file E))) s = (Ok tt, s0) ->
  Path_mkdir E MODEL_DIR true true s0 = (Ok tt, s1) ->
  urlretrieve E MODEL_URL model_path show_progress (say announcement s1)
  = (Raise e, s2) ->
  Exn.is_Exception e = false ->
  download_model E s0 = (Raise e, s2) /\
  main E s = (Traceback e, s2).
Proof.
  intros Hcd Hmk Hurl He.
  assert (download_model E s0 = (Raise e, s2)) as Hdl.
  { rewrite download_model_run, Hmk, Hurl. unfold failed. rewrite He.
    reflexivity. }
  split; [exact Hdl|].
  unfold main, bind. rewrite Hcd, Hdl. reflexivity.
Qed.

Lemma interrupt_not_caught_witness :
  main Scenario.interrupted Example.boot
  = (Traceback Scenario.interrupt,
     snd (urlretrieve Scenario.interrupted MODEL_URL model_path show_progress
            (say announcement (State Example.project (fs Example.prepared) [])))) /\
  percents (out (snd (main Scenario.interrupted Example.boot)))
  = [0 # 5; 100]%Q /\
  ~ In PleaseManual (out (snd (main Scenario.interrupted Example.boot))).
Proof.
  split; [|split].
  - apply (interrupt_not_caught Scenario.interrupted Example.boot Example.start
             (State Example.project (fs Example.prepared) [])).
    + vm_compute. reflexivity.
    + vm_compute. reflexivity.
    + vm_compute. reflexivity.
    + reflexivity.
  - vm_compute. reflexivity.
  - vm_compute. intros H. repeat (destruct H as [H|H]; [discriminate|]).
    exact H.
Defined.

(** ** The range of the percentage *)

Lemma pymin_le_r x y : (pymin x y <= y)%Q.
Proof.
  unfold pymin. destruct (Qle_bool x y) eqn:Hxy.
  - apply Qle_bool_iff. exact Hxy.
  - apply Qle_refl.
Qed.

Lemma pymin_nonneg x y : (0 <= x)%Q -> (0 <= y)%Q -> (0 <= pymin x y)%Q.
Proof. intros Hx Hy. unfold pymin. destruct (Qle_bool x y); assumption. Qed.

(** X2. The percentage of a progress report never exceeds 100, however
    far the block count runs past the total, and it is not negative when
    the byte count [block_num * block_size] is not. *)
Theorem percent_in_range (block_num block_size total_size : Z) (s : state)
    (r : unit) (s' : state) :
  show_progress block_num block_size total_size s = (Ok r, s') ->
  exists percent mb_done mb_total,
    s' = say [Progress percent mb_done mb_total] s /\
    (percent <= 100)%Q /\
    (0 <= block_num * block_size -> (0 <= percent)%Q).
Proof.
  rewrite show_progress_run. destruct (overflows _ _ _); [discriminate|].
  rewrite print_run. intros H. inversion H; subst. unfold progress_line.
  do 3 eexists. split; [reflexivity|].
  destruct (0 <? total_size) eqn:Hts.
  - split; [apply pymin_le_r|]. intros Hd. apply pymin_nonneg; [|discriminate].
    unfold Qdiv. apply Qmult_le_0_compat.
    + change 0%Q with (inject_Z 0). rewrite <- Zle_Qle. lia.
    + apply Qinv_le_0_compat. change 0%Q with (inject_Z 0).
      rewrite <- Zle_Qle. lia.
  - split; [discriminate|]. intros _. apply Qle_refl.
Qed.

Lemma percent_in_range_witness :
  exists percent mb_done mb_total,
    snd (show_progress 1000 bs 5 Example.start)
    = say [Progress percent mb_done mb_total] Example.start /\
    (0 <= percent <= 100)%Q.
Proof.
  destruct (percent_in_range 1000 bs 5 Example.start tt
              (snd (show_progress 1000 bs 5 Example.start)))
    as (p & d & t & Hs & Hle & Hge).
  - vm_compute. reflexivity.
  - exists p, d, t. split; [exact Hs|]. split; [apply Hge; vm_compute; discriminate | exact Hle].
Defined.

Lemma percent_at_unknown size j : size <= 0 -> percent_at size j = 0%Q.
Proof.
  intros Hsize. unfold percent_at.
  assert ((0 <? size) = false) as -> by lia. reflexivity.
Qed.

(** X3. When the server sends no usable content length (none at all,
    zero or negative), a successful download reports 0% every time: once
    before the first read and once after each block. *)
Theorem unknown_length_reports_zero (E : env) (s s' : state) (h : header)
    (reads : list read_result) :
  download_model E s = (Ok true, s') ->
  net E MODEL_URL = Response h reads ->
  header_size h <= 0 ->
  exists new,
    out s' = out s ++ new /\
    percents new = repeat 0%Q (S (nblocks reads)).
Proof.
  intros Hrun Hnet Hsize.
  apply download_model_success in Hrun
    as (s1 & h' & reads' & _ & Hnet' & _ & _ & _ & _ & _ & Ho).
  rewrite Hnet in Hnet'. inversion Hnet'; subst h' reads'.
  eexists. split; [exact Ho|].
  rewrite !percents_app, percents_reports. cbn [percents announcement
    success_report app]. rewrite app_nil_r.
  assert (forall js, map (percent_at (header_size h)) js
                     = repeat 0%Q (length js)) as Hall.
  { induction js as [|j js IH]; [reflexivity|].
    cbn [map length repeat]. rewrite IH, percent_at_unknown by exact Hsize.
    reflexivity. }
  rewrite Hall, length_seq. reflexivity.
Qed.

Lemma unknown_length_reports_zero_witness :
  exists new,
    out (snd (download_model Example.online2 Example.start)) = [] ++ new /\
    percents new = [0; 0; 0]%Q.
Proof.
  apply (unknown_length_reports_zero Example.online2 Example.start _ Absent
           [Data (Example.payload 4); Data (Example.payload 3); Data []]).
  - vm_compute. reflexivity.
  - reflexivity.
  - vm_compute. discriminate.
Defined.

(** ** Directory creation *)

#[local] Instance grows_preorder t : PreOrder (grows t).
Proof.
  split.
  - intros s. repeat split. intros p. left. reflexivity.
  - intros s1 s2 s3 (Hc1 & Ho1 & Hf1) (Hc2 & Ho2 & Hf2).
    split; [congruence|]. split; [congruence|]. intros p.
    destruct (Hf2 p) as [Heq|(Hnone & Hdir & q & Hq & Hp)].
    + rewrite Heq. apply Hf1.
    + destruct (Hf1 p) as [Heq1|(_ & Hdir1 & _)]; [|congruence].
      right. rewrite <- Heq1. repeat split; try assumption.
      exists q. split; [exact Hq | congruence].
Qed.

Lemma os_mkdir_grows E t q :
  q `prefix_of` t -> preserves (grows t) (os_mkdir E q).
Proof.
  intros Hq s r s'. unfold os_mkdir.
  destruct (fs s !! (cwd s ++ q)) eqn:Hlook;
    [intros H; inversion H; subst; reflexivity|].
  destruct (creatable E (cwd s ++ q) s);
    intros H; inversion H; subst; [|reflexivity].
  repeat split. intros p. cbn.
  destruct (decide (p = cwd s ++ q)) as [->|Hne].
  - right. rewrite lookup_insert_eq. repeat split; [exact Hlook|].
    exists q. split; [exact Hq | reflexivity].
  - left. apply lookup_insert_ne. congruence.
Qed.

Lemma mkdir_except_OSError_state p exist_ok e s r s' :
  mkdir_except_OSError p exist_ok e s = (r, s') -> s' = s.
Proof.
  unfold mkdir_except_OSError, bind, is_dir, bind, lookup_node, ret, raise.
  destruct (Exn.is_OSError e), exist_ok;
    try (intros H; inversion H; reflexivity).
  destruct (fs s !! (cwd s ++ p)) as [[|d]|]; intros H; inversion H; reflexivity.
Qed.

Lemma mkdir_except_OSError_preserves R `{!PreOrder R} p exist_ok e :
  preserves R (mkdir_except_OSError p exist_ok e).
Proof.
  intros s r s' H. apply mkdir_except_OSError_state in H. subst. reflexivity.
Qed.

Lemma mkdir_leaf_grows E t q exist_ok :
  q `prefix_of` t -> preserves (grows t) (mkdir_leaf E q exist_ok).
Proof.
  intros Hq. apply preserves_catch; [apply _ | apply os_mkdir_grows, Hq |].
  intros e. destruct (Exn.is_FileNotFoundError e).
  - apply preserves_raise, _.
  - apply mkdir_except_OSError_preserves, _.
Qed.

Lemma mkdir_parents_grows E t rp exist_ok :
  rev rp `prefix_of` t -> preserves (grows t) (mkdir_parents E rp exist_ok).
Proof.
  revert exist_ok. induction rp as [|c up IH]; intros exist_ok Hq;
    cbn [mkdir_parents];
    (apply preserves_catch; [apply _ | apply os_mkdir_grows, Hq |]);
    intros e; destruct (Exn.is_FileNotFoundError e);
    try (apply mkdir_except_OSError_preserves, _).
  - apply preserves_raise, _.
  - apply preserves_bind; [apply _ | |].
    + apply IH. cbn [rev] in Hq. eapply prefix_app_l. exact Hq.
    + intros _. apply mkdir_leaf_grows, Hq.
Qed.

(** [mkdir(parents=True)] only adds directories on the way to its
    target; it never changes or removes an entry. *)
Lemma Path_mkdir_grows E p exist_ok :
  preserves (grows p) (Path_mkdir E p true exist_ok).
Proof.
  unfold Path_mkdir. apply mkdir_parents_grows. rewrite rev_involutive.
  reflexivity.
Qed.

Lemma os_mkdir_post E q s s' :
  os_mkdir E q s = (Ok tt, s') ->
  cwd s' = cwd s /\ fs s' !! (cwd s ++ q) = Some Dir.
Proof.
  unfold os_mkdir. destruct (fs s !! (cwd s ++ q)); [discriminate|].
  destruct (creatable E (cwd s ++ q) s); [|discriminate].
  intros H. inversion H; subst. cbn. split; [reflexivity|].
  apply lookup_insert_eq.
Qed.

Lemma mkdir_except_OSError_post q exist_ok e s s' :
  mkdir_except_OSError q exist_ok e s = (Ok tt, s') ->
  cwd s' = cwd s /\ fs s' !! (cwd s ++ q) = Some Dir.
Proof.
  intros H. pose proof (mkdir_except_OSError_state _ _ _ _ _ _ H) as ->.
  split; [reflexivity|]. revert H.
  unfold mkdir_except_OSError, bind, is_dir, bind, lookup_node, ret, raise.
  destruct (Exn.is_OSError e), exist_ok; try discriminate.
  destruct (fs s !! (cwd s ++ q)) as [[|d]|]; try discriminate. reflexivity.
Qed.

Lemma mkdir_leaf_post E q exist_ok s s' :
  mkdir_leaf E q exist_ok s = (Ok tt, s') ->
  cwd s' = cwd s /\ fs s' !! (cwd s ++ q) = Some Dir.
Proof.
  intros H. apply catch_inv in H as [([] & H & _)|(e & s1 & H1 & H)].
  - apply os_mkdir_post in H. exact H.
  - apply os_mkdir_quiet in H1 as Hq. destruct Hq as [Hc _].
    destruct (Exn.is_FileNotFoundError e); [discriminate|].
    apply mkdir_except_OSError_post in H. rewrite Hc in H. exact H.
Qed.

(** A [mkdir] that returns leaves a directory at its target. *)
Lemma Path_mkdir_post E p exist_ok s s' :
  Path_mkdir E p true exist_ok s = (Ok tt, s') ->
  fs s' !! (cwd s ++ p) = Some Dir.
Proof.
  unfold Path_mkdir. rewrite <- (rev_involutive p) at 2.
  destruct (rev p) as [|c up]; cbn [mkdir_parents]; intros H;
    apply catch_inv in H as [([] & H & _)|(e & s1 & H1 & H)];
    try (apply os_mkdir_post in H; apply H);
    apply os_mkdir_quiet in H1 as Hq; destruct Hq as [Hc _];
    destruct (Exn.is_FileNotFoundError e); try discriminate;
    try (apply mkdir_except_OSError_post in H; rewrite Hc in H; apply H).
  apply bind_inv in H as [([] & s2 & H2 & H)|(e' & _ & ?)]; [|discriminate].
  apply mkdir_parents_quiet in H2 as [Hc2 _].
  apply mkdir_leaf_post in H. rewrite Hc2, Hc in H. apply H.
Qed.

(** After [mkdir] the run changes the destination file only. *)
Lemma download_model_after_mkdir E s r s' :
  download_model E s = (r, s') ->
  exists r1 s1,
    Path_mkdir E MODEL_DIR true true s = (r1, s1) /\
    (forall e, r1 = Raise e -> r = Raise e /\ s' = s1) /\
    frame model_path s1 s'.
Proof.
  rewrite download_model_run.
  destruct (Path_mkdir E MODEL_DIR true true s) as [[[]|e0] s1] eqn:Hmk.
  2:{ intros H. inversion H; subst. exists (Raise e0), s'.
      split; [reflexivity|]. split; [|reflexivity].
      intros e He. inversion He; subst. split; reflexivity. }
  intros H. exists (Ok tt), s1. split; [reflexivity|]. split; [discriminate|].
  assert (forall e s2 r s', frame model_path s1 s2 -> failed e s2 = (r, s') ->
            frame model_path s1 s') as Hfailed.
  { intros e s2 r0 s0 Hfr. unfold failed.
    destruct (Exn.is_Exception e); intros H0; inversion H0; subst;
      [|exact Hfr].
    transitivity s2; [exact Hfr | apply frame_say]. }
  destruct (urlretrieve _ _ _ _ _) as [[[]|e] s2] eqn:Hurl;
    apply urlretrieve_frame in Hurl;
    assert (frame model_path s1 s2) as Hfr
      by (transitivity (say announcement s1); [apply frame_say | exact Hurl]).
  2:{ eapply Hfailed; eassumption. }
  destruct (stat_size _ _ _) as [[n|e] s3] eqn:Hstat;
    apply stat_size_state in Hstat; subst s3;
    assert (frame model_path s1 (say [Newline] s2)) as Hfr'
      by (transitivity s2; [exact Hfr | apply frame_say]).
  2:{ eapply Hfailed; eassumption. }
  destruct (truediv n 1024) as [kb|e].
  - inversion H; subst.
    transitivity (say [Newline] s2); [exact Hfr' | apply frame_say].
  - eapply Hfailed; [|exact H].
    transitivity (say [Newline] s2); [exact Hfr' | apply frame_say].
Qed.

Lemma model_dir_not_model_path (d : path) : d ++ MODEL_DIR <> d ++ model_path.
Proof.
  intros H. apply app_inv_head in H. discriminate.
Qed.

(** X4. Whatever happens, [download_model] leaves every existing entry
    of the filesystem other than the destination file as it was, and the
    only entries it adds besides that file are directories on the way
    from the working directory to [assets/models]. *)
Theorem download_model_footprint (E : env) (s : state) (r : result bool)
    (s' : state) (p : path) :
  download_model E s = (r, s') ->
  p <> cwd s ++ model_path ->
  fs s' !! p = fs s !! p \/
  (fs s !! p = None /\ fs s' !! p = Some Dir /\
   exists q, q `prefix_of` MODEL_DIR /\ p = cwd s ++ q).
Proof.
  intros Hrun Hp.
  apply download_model_after_mkdir in Hrun as (r1 & s1 & Hmk & _ & Hc & Hfr).
  apply Path_mkdir_grows in Hmk as (Hc1 & _ & Hgrow).
  rewrite Hfr by congruence. apply Hgrow.
Qed.

Lemma download_model_footprint_witness :
  fs (snd (download_model Example.online Example.start))
    !! (Example.project ++ ["scripts"]%string)
  = fs Example.start !! (Example.project ++ ["scripts"]%string) /\
  fs (snd (download_model Example.online Example.start))
    !! (Example.project ++ ["assets"]%string) = Some Dir.
Proof.
  split.
  - destruct (download_model_footprint Example.online Example.start
                (fst (download_model Example.online Example.start))
                (snd (download_model Example.online Example.start))
                (Example.project ++ ["scripts"]%string))
      as [Hsame|(Hnone & _)].
    + apply surjective_pairing.
    + vm_compute. discriminate.
    + exact Hsame.
    + vm_compute in Hnone. discriminate.
  - destruct (download_model_footprint Example.online Example.start
                (fst (download_model Example.online Example.start))
                (snd (download_model Example.online Example.start))
                (Example.project ++ ["assets"]%string))
      as [Hsame|(_ & Hdir & _)].
    + apply surjective_pairing.
    + vm_compute. discriminate.
    + vm_compute in Hsame. discriminate.
    + exact Hdir.
Defined.

(** X5. Whenever [download_model] returns, with true or with false, the
    directory [assets/models] exists under the working directory. *)
Theorem model_dir_exists_on_return (E : env) (s : state) (b : bool)
    (s' : state) :
  download_model E s = (Ok b, s') ->
  fs s' !! (cwd s ++ MODEL_DIR) = Some Dir.
Proof.
  intros Hrun.
  apply download_model_after_mkdir in Hrun as (r1 & s1 & Hmk & Hraise & Hc & Hfr).
  destruct r1 as [[]|e]; [|destruct (Hraise e eq_refl); discriminate].
  apply Path_mkdir_quiet in Hmk as Hq. destruct Hq as [Hc1 _].
  rewrite Hfr by (rewrite Hc1; apply model_dir_not_model_path).
  apply Path_mkdir_post in Hmk. exact Hmk.
Qed.

Lemma model_dir_exists_on_return_witness :
  fs (snd (download_model Example.offline Example.start))
    !! (Example.project ++ MODEL_DIR) = Some Dir.
Proof.
  apply (model_dir_exists_on_return Example.offline Example.start false).
  vm_compute. reflexivity.
Defined.

(** X6. [exist_ok] accepts a directory only: when a regular file sits at
    [assets/models], [mkdir] raises [FileExistsError], and the exception
    leaves [download_model] with nothing printed and nothing changed. *)
Theorem file_in_place_of_directory (E : env) (s : state) (d : list Byte.byte) :
  fs s !! (cwd s ++ MODEL_DIR) = Some (File d) ->
  download_model E s
  = (Raise (os_error Exn.FileExistsError "File exists"), s).
Proof.
  intros Hfile. rewrite download_model_run.
  assert (Path_mkdir E MODEL_DIR true true s
          = (Raise (os_error Exn.FileExistsError "File exists"), s)) as ->;
    [|reflexivity].
  unfold Path_mkdir, MODEL_DIR. cbn [rev app mkdir_parents].
  unfold catch, os_mkdir. fold MODEL_DIR. rewrite Hfile. cbn.
  unfold bind, is_dir, lookup_node, bind, ret. rewrite Hfile. reflexivity.
Qed.

Lemma file_in_place_of_directory_witness :
  download_model Example.online Scenario.blocked
  = (Raise (os_error Exn.FileExistsError "File exists"), Scenario.blocked).
Proof.
  apply (file_in_place_of_directory Example.online Scenario.blocked []).
  vm_compute. reflexivity.
Defined.

(** ** Transfers that run to the end *)

Lemma retrieve_loop_run E f size reads :
  write_fault E = None ->
  clean reads = true ->
  forall read k s d,
    (forall j, (j <= k + nblocks reads)%nat ->
               overflows (Z.of_nat j) bs size = false) ->
    fs s !! (cwd s ++ f) = Some (File d) ->
    exists s',
      retrieve_loop E f show_progress size reads read k s
      = (Ok (read + Z.of_nat (length (body reads))), s').
Proof.
  intros Hwf. induction reads as [|[[|b0 bt]|e] rest IH];
    cbn [clean retrieve_loop body nblocks]; intros Hclean read k s d Hov Hd.
  - exists s. unfold ret. cbn. rewrite Z.add_0_r. reflexivity.
  - exists s. unfold ret. cbn. rewrite Z.add_0_r. reflexivity.
  - unfold bind at 1. unfold write. rewrite Hwf.
    destruct (decide (None = Some k)) as [Hk|_]; [discriminate|].
    cbn [set_fs]. unfold bind at 1. rewrite show_progress_run, Hov by lia.
    rewrite print_run.
    destruct (IH Hclean (read + Z.of_nat (length (b0 :: bt))) (S k)
                (say [progress_line (Z.of_nat (S k)) bs size]
                   (State (cwd s)
                      (alter (append (b0 :: bt)) (cwd s ++ f) (fs s)) (out s)))
                (d ++ b0 :: bt)) as [s' Hs'].
    + intros j Hj. apply Hov. lia.
    + cbn. rewrite lookup_alter_eq, Hd. reflexivity.
    + exists s'. rewrite Hs'. rewrite length_app. do 2 f_equal. lia.
  - discriminate.
Qed.

Lemma parent_model_path (d : path) : parent (d ++ model_path) = d ++ MODEL_DIR.
Proof.
  unfold parent, model_path. rewrite app_assoc. apply removelast_last.
Qed.

Lemma open_wb_run E s :
  fs s !! (cwd s ++ MODEL_DIR) = Some Dir ->
  writable E s ->
  open_wb E model_path s
  = (Ok tt, State (cwd s) (<[cwd s ++ model_path := File []]> (fs s)) (out s)).
Proof.
  intros Hdir (Hnd & Hdd & Hdf). unfold open_wb.
  destruct (fs s !! (cwd s ++ model_path)) as [[|d]|].
  - congruence.
  - destruct (decide _); [contradiction | reflexivity].
  - unfold creatable. rewrite parent_model_path, Hdir.
    destruct (decide _); [contradiction | reflexivity].
Qed.

Lemma overflows_upto n size j :
  fits_double (Z.of_nat n * bs * 100) -> fits_double size ->
  (j <= n)%nat -> overflows (Z.of_nat j) bs size = false.
Proof.
  intros Hn Hs Hj. apply overflows_fits; [|exact Hs].
  eapply fits_double_shrink; [|exact Hn]. unfold bs. lia.
Qed.

(** A transfer that is served into a writable destination ends with all
    the bytes of the body in the file; it raises only when they are
    fewer than announced. *)
Lemma urlretrieve_run E s h reads :
  fs s !! (cwd s ++ MODEL_DIR) = Some Dir ->
  writable E s ->
  served E MODEL_URL h reads ->
  exists s',
    urlretrieve E MODEL_URL model_path show_progress s
    = ((if short h reads then Raise too_short_error else Ok tt), s') /\
    cwd s' = cwd s /\
    fs s' !! (cwd s ++ model_path) = Some (File (body reads)).
Proof.
  intros Hdir Hw (Hnet & Hh & Hclean & Hwf & Hfn & Hfs).
  unfold urlretrieve. rewrite Hnet. unfold bind at 1.
  rewrite (open_wb_run E s Hdir Hw). unfold bind at 1.
  assert (match h with
          | Absent => ret (-1)
          | Numeric n => ret n
          | Malformed =>
              raise (Exn.Make Exn.ValueError
                       "invalid literal for int() with base 10")
          end = ret (header_size h)) as ->.
  { destruct h; [reflexivity | reflexivity | contradiction]. }
  unfold ret at 1. unfold bind at 1.
  assert (overflows 0 bs (header_size h) = false) as Hov0
    by (apply (overflows_upto (nblocks reads) _ 0%nat); assumption || lia).
  rewrite show_progress_run, Hov0, print_run.
  unfold bind at 1.
  destruct (retrieve_loop_run E model_path (header_size h) reads Hwf Hclean
              0 0%nat
              (say [progress_line 0 bs (header_size h)]
                 (State (cwd s) (<[cwd s ++ model_path := File []]> (fs s))
                    (out s)))
              []) as [s' Hloop].
  { intros j Hj. apply (overflows_upto (nblocks reads)); assumption. }
  { cbn. apply lookup_insert_eq. }
  rewrite Hloop.
  eapply retrieve_loop_ok in Hloop as (Hc & Hf & _ & _).
  2:{ cbn. apply lookup_insert_eq. }
  cbn in Hc, Hf. exists s'. split; [|split; assumption].
  unfold short. rewrite Z.add_0_l.
  destruct ((0 <=? header_size h)
            && (Z.of_nat (length (body reads)) <? header_size h));
    reflexivity.
Qed.

Lemma Path_mkdir_keeps_destination E s s1 :
  Path_mkdir E MODEL_DIR true true s = (Ok tt, s1) ->
  cwd s1 = cwd s /\ out s1 = out s /\
  fs s1 !! (cwd s ++ MODEL_DIR) = Some Dir /\
  fs s1 !! (cwd s ++ model_path) = fs s !! (cwd s ++ model_path).
Proof.
  intros Hmk. pose proof (Path_mkdir_post _ _ _ _ _ Hmk) as Hdir.
  apply Path_mkdir_grows in Hmk as (Hc & Ho & Hgrow).
  repeat split; try assumption.
  destruct (Hgrow (cwd s ++ model_path)) as [Heq|(_ & _ & q & Hq & Hp)];
    [exact Heq|].
  apply app_inv_head in Hp. subst q. apply prefix_length in Hq.
  cbn in Hq. lia.
Qed.

Lemma writable_after_mkdir E s s1 :
  Path_mkdir E MODEL_DIR true true s = (Ok tt, s1) ->
  writable E s -> writable E (say announcement s1).
Proof.
  intros Hmk (Hnd & Hdd & Hdf).
  apply Path_mkdir_keeps_destination in Hmk as (Hc & _ & _ & Hf).
  unfold writable, say. cbn [cwd fs]. rewrite Hc, Hf.
  repeat split; assumption.
Qed.

(** X7. The download succeeds whenever nothing stands in its way: the
    directory can be made, the destination can be written, the server
    sends a whole body of at least the announced length, and [stat]
    works.  Then [download_model] returns true and the destination file
    holds the body. *)
Theorem download_succeeds (E : env) (s s1 : state) (h : header)
    (reads : list read_result) :
  Path_mkdir E MODEL_DIR true true s = (Ok tt, s1) ->
  writable E s ->
  served E MODEL_URL h reads ->
  header_size h <= Z.of_nat (length (body reads)) ->
  stat_fault E = None ->
  fits_double (Z.of_nat (length (body reads))) ->
  exists s',
    download_model E s = (Ok true, s') /\
    fs s' !! (cwd s ++ model_path) = Some (File (body reads)).
Proof.
  intros Hmk Hw Hserved Hlen Hsf Hfit.
  pose proof (writable_after_mkdir _ _ _ Hmk Hw) as Hw1.
  pose proof (Path_mkdir_keeps_destination _ _ _ Hmk) as (Hc1 & _ & Hdir & _).
  destruct (urlretrieve_run E (say announcement s1) h reads) as (s2 & Hurl & Hc2 & Hf2);
    [cbn; rewrite Hc1; exact Hdir | exact Hw1 | exact Hserved |].
  assert (short h reads = false) as Hshort.
  { unfold short. apply andb_false_iff. right. lia. }
  rewrite Hshort in Hurl. cbn in Hc2, Hf2. rewrite Hc1 in Hc2, Hf2.
  rewrite download_model_run, Hmk, Hurl.
  unfold stat_size. rewrite Hsf. unfold bind, lookup_node, ret. cbn.
  rewrite Hc2, Hf2. unfold truediv. change (1024 =? 0) with false. cbv iota.
  rewrite too_large_fits by (assumption || lia).
  eexists. split; [reflexivity|]. cbn. exact Hf2.
Qed.

Lemma download_succeeds_witness :
  exists s',
    download_model Example.online2 Scenario.stale = (Ok true, s') /\
    fs s' !! (Example.project ++ model_path) = Some (File (Example.payload 7)).
Proof.
  apply (download_succeeds Example.online2 Scenario.stale Scenario.stale Absent
           [Data (Example.payload 4); Data (Example.payload 3); Data []]).
  - vm_compute. reflexivity.
  - repeat split; [vm_compute; discriminate | set_solver | set_solver].
  - repeat split; try discriminate; vm_compute; reflexivity.
  - vm_compute. discriminate.
  - reflexivity.
  - vm_compute. reflexivity.
Defined.

(** X8. When the server closes the connection before the announced
    number of bytes has arrived, the download fails with
    [ContentTooShortError]: [download_model] prints the recovery
    instructions and returns false, and the bytes that did arrive stay
    in the destination file, which is not removed. *)
Theorem short_body_leaves_partial_file (E : env) (s s1 : state) (h : header)
    (reads : list read_result) :
  Path_mkdir E MODEL_DIR true true s = (Ok tt, s1) ->
  writable E s ->
  served E MODEL_URL h reads ->
  Z.of_nat (length (body reads)) < header_size h ->
  exists s2,
    download_model E s
    = (Ok false, say (recovery too_short_error (cwd s)) s2) /\
    fs s2 !! (cwd s ++ model_path) = Some (File (body reads)).
Proof.
  intros Hmk Hw Hserved Hlen.
  pose proof (writable_after_mkdir _ _ _ Hmk Hw) as Hw1.
  pose proof (Path_mkdir_keeps_destination _ _ _ Hmk) as (Hc1 & _ & Hdir & _).
  destruct (urlretrieve_run E (say announcement s1) h reads) as (s2 & Hurl & Hc2 & Hf2);
    [cbn; rewrite Hc1; exact Hdir | exact Hw1 | exact Hserved |].
  assert (short h reads = true) as Hshort.
  { unfold short. apply andb_true_iff. split; lia. }
  rewrite Hshort in Hurl. cbn in Hc2, Hf2. rewrite Hc1 in Hc2, Hf2.
  exists s2. split; [|exact Hf2].
  apply (download_model_transfer_raises E s s1 too_short_error s2 Hmk Hurl).
  reflexivity.
Qed.

Lemma short_body_leaves_partial_file_witness :
  exists s2,
    download_model Scenario.short Example.start
    = (Ok false, say (recovery too_short_error Example.project) s2) /\
    fs s2 !! (Example.project ++ model_path) = Some (File (Example.payload 5)).
Proof.
  apply (short_body_leaves_partial_file Scenario.short Example.start
           (State Example.project (fs Example.prepared) []) (Numeric 10)
           [Data (Example.payload 3); Data (Example.payload 2)]).
  - vm_compute. reflexivity.
  - repeat split; [vm_compute; discriminate | set_solver | set_solver].
  - repeat split; try discriminate; vm_compute; reflexivity.
  - vm_compute. reflexivity.
Defined.

(** ** What a build script can rely on *)

(** X9. Exit status 0 means the model is in place: the server answered,
    and the file [assets/models/pose_landmark_lite.tflite] under the
    script's parent-of-parent directory holds the whole body, which is
    at least as long as the announced content length. *)
Theorem exit_zero_means_downloaded (E : env) (s s' : state) :
  main E s = (Exit 0, s') ->
  exists h reads,
    net E MODEL_URL = Response h reads /\
    cwd s' = parent (parent (script_file E)) /\
    fs s' !! (parent (parent (script_file E)) ++ model_path)
    = Some (File (body reads)) /\
    header_size h <= Z.of_nat (length (body reads)).
Proof.
  unfold main, bind.
  destruct (os_chdir _ s) as [[[]|e] s0] eqn:Hcd; [|discriminate].
  destruct (download_model E s0) as [[[|]|e] s1] eqn:Hrun; try discriminate.
  intros H. inversion H; subst s1; clear H.
  assert (cwd s0 = parent (parent (script_file E))) as Hc0.
  { unfold os_chdir in Hcd.
    destruct (fs s !! parent (parent (script_file E))) as [[|d]|];
      inversion Hcd; reflexivity. }
  apply download_model_success in Hrun
    as (s1 & h & reads & _ & Hnet & _ & Hc & Hf & _ & Hlen & _).
  exists h, reads. rewrite <- Hc0. repeat split; assumption.
Qed.

Lemma exit_zero_means_downloaded_witness :
  exists h reads,
    net Example.online MODEL_URL = Response h reads /\
    fs (snd (main Example.online Example.boot))
      !! (Example.project ++ model_path) = Some (File (body reads)).
Proof.
  destruct (exit_zero_means_downloaded Example.online Example.boot
              (snd (main Example.online Example.boot)))
    as (h & reads & Hnet & _ & Hf & _).
  - vm_compute. reflexivity.
  - exists h, reads. split; [exact Hnet | exact Hf].
Defined.

Lemma model_dir_after_success E s s' :
  download_model E s = (Ok true, s') ->
  cwd s' = cwd s /\ fs s' !! (cwd s ++ MODEL_DIR) = Some Dir.
Proof.
  intros Hrun.
  apply download_model_success in Hrun
    as (s1 & h & reads & Hmk & _ & _ & Hc & _ & Hfr & _).
  split; [exact Hc|].
  rewrite Hfr by apply model_dir_not_model_path.
  apply Path_mkdir_post in Hmk. exact Hmk.
Qed.

(** X10. A second successful fetch changes nothing but the destination
    file, and when the server sends the same response again it changes
    nothing at all: the filesystem after the second run is the
    filesystem after the first. *)
Theorem refetch_is_idempotent (E1 E2 : env) (s s1 s2 : state) :
  download_model E1 s = (Ok true, s1) ->
  download_model E2 s1 = (Ok true, s2) ->
  (forall p, p <> cwd s ++ model_path -> fs s2 !! p = fs s1 !! p) /\
  (net E1 MODEL_URL = net E2 MODEL_URL -> fs s2 = fs s1).
Proof.
  intros Hrun1 Hrun2.
  pose proof (model_dir_after_success _ _ _ Hrun1) as [Hc1 Hdir].
  apply download_model_success in Hrun1
    as (_ & h1 & reads1 & _ & Hnet1 & _ & _ & Hf1 & _).
  apply download_model_success in Hrun2
    as (s1' & h2 & reads2 & Hmk & Hnet2 & _ & _ & Hf2 & Hfr & _).
  rewrite Path_mkdir_exists in Hmk by (rewrite Hc1; exact Hdir).
  inversion Hmk; subst s1'. rewrite Hc1 in Hf2, Hfr.
  split; [exact Hfr|].
  intros Hsame. apply map_eq. intros p.
  destruct (decide (p = cwd s ++ model_path)) as [->|Hp]; [|apply Hfr, Hp].
  rewrite Hf1, Hf2. rewrite Hnet1, Hnet2 in Hsame.
  inversion Hsame. reflexivity.
Qed.

Lemma refetch_is_idempotent_witness :
  fs (snd (download_model Example.online
             (snd (download_model Example.online Example.start))))
  = fs (snd (download_model Example.online Example.start)).
Proof.
  destruct (refetch_is_idempotent Example.online Example.online Example.start
              (snd (download_model Example.online Example.start))
              (snd (download_model Example.online
                      (snd (download_model Example.online Example.start)))))
    as [_ Hsame].
  - vm_compute. reflexivity.
  - vm_compute. reflexivity.
  - apply Hsame. reflexivity.
Defined.

(** ** The file that was there before *)

Lemma retrieve_loop_prefix E f size reads :
  forall read k s r s' d,
    retrieve_loop E f show_progress size reads read k s = (r, s') ->
    fs s !! (cwd s ++ f) = Some (File d) ->
    exists pre,
      pre `prefix_of` body reads /\
      fs s' !! (cwd s ++ f) = Some (File (d ++ pre)).
Proof.
  induction reads as [|[[|b0 bt]|e] rest IH]; intros read k s r s' d;
    cbn [retrieve_loop body].
  - intros H Hd. inversion H; subst. exists []. rewrite app_nil_r.
    split; [apply prefix_nil | exact Hd].
  - intros H Hd. inversion H; subst. exists []. rewrite app_nil_r.
    split; [apply prefix_nil | exact Hd].
  - intros H Hd.
    apply bind_inv in H as [([] & s1 & Hw & H)|(e & Hw & _)].
    2:{ unfold write in Hw. destruct (decide _); inversion Hw; subst.
        exists []. rewrite app_nil_r. split; [apply prefix_nil | exact Hd]. }
    unfold write in Hw. destruct (decide _); [discriminate|].
    inversion Hw; subst s1; clear Hw.
    assert (alter (append (b0 :: bt)) (cwd s ++ f) (fs s) !! (cwd s ++ f)
            = Some (File (d ++ b0 :: bt))) as Hd1.
    { rewrite lookup_alter_eq, Hd. reflexivity. }
    apply bind_inv in H as [([] & s2 & Hp & H)|(e & Hp & _)].
    2:{ rewrite show_progress_run in Hp. destruct (overflows _ _ _);
          inversion Hp; subst.
        exists (b0 :: bt). split; [apply prefix_app_r; reflexivity | exact Hd1]. }
    rewrite show_progress_run in Hp. destruct (overflows _ _ _); [discriminate|].
    rewrite print_run in Hp. inversion Hp; subst s2; clear Hp.
    eapply IH in H; [|exact Hd1].
    destruct H as (pre & Hpre & Hf). cbn in Hf.
    exists ((b0 :: bt) ++ pre). split; [apply prefix_app, Hpre|].
    rewrite Hf, <- app_assoc. reflexivity.
  - intros H Hd. inversion H; subst. exists []. rewrite app_nil_r.
    split; [apply prefix_nil | exact Hd].
Qed.

Lemma urlretrieve_prefix E s old h reads r s' :
  fs s !! (cwd s ++ model_path) = Some (File old) ->
  cwd s ++ model_path ∉ denied E ->
  net E MODEL_URL = Response h reads ->
  urlretrieve E MODEL_URL model_path show_progress s = (r, s') ->
  exists pre,
    pre `prefix_of` body reads /\
    fs s' !! (cwd s ++ model_path) = Some (File pre).
Proof.
  intros Hold Hden Hnet. unfold urlretrieve. rewrite Hnet. intros H.
  assert (open_wb E model_path s
          = (Ok tt, State (cwd s) (<[cwd s ++ model_path := File []]> (fs s))
                      (out s))) as Hopen.
  { unfold open_wb. rewrite Hold. destruct (decide _); [contradiction|].
    reflexivity. }
  unfold bind at 1 in H. rewrite Hopen in H.
  assert (forall _ : unit,
            (<[cwd s ++ model_path := File []]> (fs s) : gmap path node)
              !! (cwd s ++ model_path) = Some (File [])) as Hempty
    by (intros _; apply lookup_insert_eq).
  apply bind_inv in H as [(size & s1 & Hsize & H)|(e & Hsize & _)].
  2:{ destruct h; inversion Hsize; subst. exists [].
      split; [apply prefix_nil | apply (Hempty tt)]. }
  assert (s1 = State (cwd s) (<[cwd s ++ model_path := File []]> (fs s)) (out s))
    as -> by (destruct h; inversion Hsize; reflexivity).
  clear Hsize.
  apply bind_inv in H as [([] & s2 & Hp & H)|(e & Hp & _)].
  2:{ rewrite show_progress_run in Hp. destruct (overflows _ _ _);
        inversion Hp; subst.
      exists []. split; [apply prefix_nil | apply (Hempty tt)]. }
  rewrite show_progress_run in Hp. destruct (overflows _ _ _); [discriminate|].
  rewrite print_run in Hp. inversion Hp; subst s2; clear Hp.
  apply bind_inv in H as [(read & s3 & Hloop & H)|(e & Hloop & _)].
  - eapply retrieve_loop_prefix in Hloop; [|apply (Hempty tt)].
    destruct Hloop as (pre & Hpre & Hf). cbn in Hf.
    exists pre. split; [exact Hpre|].
    destruct (_ && _); inversion H; subst; exact Hf.
  - eapply retrieve_loop_prefix in Hloop; [|apply (Hempty tt)].
    destruct Hloop as (pre & Hpre & Hf). cbn in Hf.
    exists pre. split; [exact Hpre | exact Hf].
Qed.

(** X11. An older download does not survive a new attempt that reaches
    the server: once the response is there the destination is opened for
    writing, and however the run ends afterwards the file holds a prefix
    of the new body (possibly nothing) and none of the old bytes. *)
Theorem old_file_is_lost (E : env) (s : state) (old : list Byte.byte)
    (h : header) (reads : list read_result) (r : result bool) (s' : state) :
  fs s !! (cwd s ++ MODEL_DIR) = Some Dir ->
  fs s !! (cwd s ++ model_path) = Some (File old) ->
  cwd s ++ model_path ∉ denied E ->
  net E MODEL_URL = Response h reads ->
  download_model E s = (r, s') ->
  exists pre,
    pre `prefix_of` body reads /\
    fs s' !! (cwd s ++ model_path) = Some (File pre).
Proof.
  intros Hdir Hold Hden Hnet.
  rewrite download_model_run, (Path_mkdir_exists E s Hdir).
  destruct (urlretrieve _ _ _ _ _) as [r2 s2] eqn:Hurl.
  apply urlretrieve_prefix with (old := old) (h := h) (reads := reads) in Hurl;
    try assumption.
  destruct Hurl as (pre & Hpre & Hf). cbn [say cwd] in Hf.
  intros H. exists pre. split; [exact Hpre|].
  assert (fs s' = fs s2) as ->; [|exact Hf].
  assert (forall e s3 r0 s0, failed e s3 = (r0, s0) -> fs s0 = fs s3) as Hfailed.
  { intros e s3 r0 s0. unfold failed.
    destruct (Exn.is_Exception e); intros H0; inversion H0; reflexivity. }
  destruct r2 as [[]|e]; [|apply Hfailed in H; exact H].
  destruct (stat_size _ _ _) as [[n|e] s3] eqn:Hstat;
    apply stat_size_state in Hstat; subst s3.
  - destruct (truediv n 1024); [inversion H; reflexivity|].
    apply Hfailed in H. exact H.
  - apply Hfailed in H. exact H.
Qed.

Lemma old_file_is_lost_witness :
  exists pre,
    pre `prefix_of` Example.payload 5 /\
    fs (snd (download_model Scenario.diskfull Scenario.stale))
      !! (Example.project ++ model_path) = Some (File pre) /\
    fst (download_model Scenario.diskfull Scenario.stale) = Ok false.
Proof.
  destruct (old_file_is_lost Scenario.diskfull Scenario.stale
              (repeat Byte.x42 9) (Numeric 5)
              [Data (Example.payload 3); Data (Example.payload 2)]
              (fst (download_model Scenario.diskfull Scenario.stale))
              (snd (download_model Scenario.diskfull Scenario.stale)))
    as (pre & Hpre & Hf).
  - vm_compute. reflexivity.
  - vm_compute. reflexivity.
  - set_solver.
  - reflexivity.
  - apply surjective_pairing.
  - exists pre. split; [exact Hpre|]. split; [exact Hf|].
    vm_compute. reflexivity.
Defined.
